(** * FAST_API_DELIVERY: authentication, access control and the order aggregate

    A shallow embedding of the request handlers of the delivery API
    ([models.py], [schemas.py], [dependencies.py], [routers/auth_routers.py],
    [routers/order_routers.py]) together with the properties of its
    authentication gate, its admin and ownership checks, the order price
    recomputation and the order status.

    The relational store is a record of three tables kept in insertion order.
    A handler is a computation over the store that either returns a value and
    the new store, or raises; a raise leaves the store as it was, which is what
    closing a SQLAlchemy session without [commit] does.  The wall clock, the
    salt drawn by the password hasher and the [Authorization] header are
    explicit inputs of a request. *)

From Stdlib Require Import ZArith List String Ascii Bool Lia.
From Stdlib Require Import DecimalString DecimalZ.
From Stdlib Require Import PrimFloat Uint63.
Import ListNotations.

Local Open Scope string_scope.
Local Open Scope list_scope.
Local Open Scope Z_scope.

(* ===================================================================== *)
(** ** The environment: configuration and arithmetic *)

(** [main.py] reads three settings from the process environment. *)
Class Settings := {
  SECRET_KEY : string;
  ALGORITHM : string;
  ACCESS_TOKEN_EXPIRE_MINUTES : Z }.

(** The [Float] columns hold Python floats.  The code touches them through
    three operations only: the literal [0] an order is created with, the
    product [item.unit_price * item.quantity] of a float and an int, and the
    builtin [sum].  No algebraic law of these operations is assumed beyond
    [sum] of nothing being that same [0], so every result below holds for
    IEEE-754 doubles with either of CPython's summation algorithms. *)
Class PyFloat := {
  num : Type;
  num_zero : num;
  num_mul_int : num -> Z -> num;
  py_sum : list num -> num;
  py_sum_nil : py_sum [] = num_zero }.

(* ===================================================================== *)
(** ** Exceptions and results *)

(** What a handler can raise: FastAPI's [HTTPException], or a Python
    exception nothing catches (answered with a 500 by the framework). *)
Inductive exn :=
| HTTPException (status_code : Z) (detail : string)
| TypeError
| ValueError
| AttributeError.

Inductive result (A : Type) :=
| Ok (a : A)
| Raise (e : exn).
Arguments Ok {A} a.
Arguments Raise {A} e.

Definition status_of (e : exn) : Z :=
  match e with
  | HTTPException status_code _ => status_code
  | _ => 500
  end.

(** Python's [str(n)] and [int(s)] on decimal numerals.  [int] also accepts
    surrounding blanks, a leading [+] and underscores; those spellings are
    never written by [str] and are read here as a [ValueError]. *)
Definition py_str (n : Z) : string := NilZero.string_of_int (Z.to_int n).

Definition py_int (s : string) : option Z :=
  option_map Z.of_int (NilZero.int_of_string s).

(* ===================================================================== *)
(** ** The libraries the handlers call *)

(** python-jose, symbolically: a token is either a string that does not
    parse as a JWS, or a payload signed with a key under an algorithm.  Only
    the two registered claims the application writes and reads are kept;
    jose rejects a [sub] that is not a string and an [exp] that is not an
    integer, so both fields are typed. *)
Module jose.

Record claims := { sub : option string; exp : option Z }.

Inductive token :=
  | Malformed (raw : string)
  | JWS (key algorithm : string) (payload : claims).

Definition encode (payload : claims) (key algorithm : string) : token :=
    JWS key algorithm payload.

  (** [jwt.decode(token, key, algorithms)] at second [now]; [None] stands for
      the [JWTError] family (bad signature, disallowed algorithm, malformed
      token, [ExpiredSignatureError]).  A token is expired when
      [exp < now]; a token without [exp] does not expire. *)
Definition decode (t : token) (key algorithm : string) (now : Z)
    : option claims :=
    match t with
    | Malformed _ => None
    | JWS k a payload =>
        if String.eqb k key && String.eqb a algorithm then
          match exp payload with
          | Some e => if e <? now then None else Some payload
          | None => Some payload
          end
        else None
    end.

End jose.

(** passlib's Argon2 context, idealised: a digest is determined by the salt
    and the secret, and [verify] accepts exactly the secret that was hashed. *)
Module passlib.

Record digest := { salt : string; secret : string }.

Definition hash (salt secret : string) : digest :=
    {| salt := salt; secret := secret |}.

Definition verify (candidate : string) (d : digest) : bool :=
    String.eqb candidate (secret d).

End passlib.

(* ===================================================================== *)
(** ** models.py *)

Module models.

Module User.
    (** [admin] is a column with [default=False]: an insert that carries
        [None] for it stores [False], so the stored flag is a boolean.
        [activated] has no default and may be NULL. *)
Record t := {
      id : Z;
      name : string;
      email : string;
      password : passlib.digest;
      activated : option bool;
      admin : bool }.
End User.

Module Order.
Section WithFloat.
Context {F : PyFloat}.
Record t := {
        id : Z;
        user : Z;
        status : string;
        price : num }.

Definition set_price (self : t) (p : num) : t :=
        {| id := id self; user := user self; status := status self; price := p |}.

Definition set_status (self : t) (s : string) : t :=
        {| id := id self; user := user self; status := s; price := price self |}.
End WithFloat.
End Order.

(** [size] is a String column that receives the integer of the schema;
    the row is taken to keep the value it was given. *)
Module OrderItens.
Section WithFloat.
Context {F : PyFloat}.
Record t := {
        id : Z;
        quantity : Z;
        flavor : string;
        size : Z;
        unit_price : num;
        order : Z }.
End WithFloat.
End OrderItens.

End models.
Import models.

(* ===================================================================== *)
(** ** The store and the session *)

Section WithEnvironment.
Context {F : PyFloat} {cfg : Settings}.

(** The three tables, each with the counter its autoincrement key is drawn
    from.  Rows are kept in insertion order, which is the order a query
    without ORDER BY is taken to return them in. *)
Record Store := {
  users : list User.t;
  users_seq : Z;
  orders : list Order.t;
  orders_seq : Z;
  order_itens : list OrderItens.t;
  order_itens_seq : Z }.

Definition empty_store : Store :=
  {| users := []; users_seq := 1;
     orders := []; orders_seq := 1;
     order_itens := []; order_itens_seq := 1 |}.

(** A computation inside one request-scoped session. *)
Definition Session (A : Type) : Type := Store -> result (A * Store).

Definition ret {A} (a : A) : Session A := fun db => Ok (a, db).

Definition bind {A B} (c : Session A) (k : A -> Session B) : Session B :=
  fun db =>
    match c db with
    | Ok (a, db') => k a db'
    | Raise e => Raise e
    end.

Definition raise {A} (e : exn) : Session A := fun _ => Raise e.

(** [if cond: raise e] followed by the rest of the body. *)
Definition raise_if (cond : bool) (e : exn) : Session unit :=
  if cond then raise e else ret tt.

End WithEnvironment.

Declare Scope session_scope.
Delimit Scope session_scope with session.
Notation "x <- c ;; k" := (bind c (fun x => k))
  (at level 61, c at next level, right associativity) : session_scope.
Notation "c ;; k" := (bind c (fun _ => k))
  (at level 61, right associativity) : session_scope.
Local Open Scope session_scope.

Section Persistence.
Context {F : PyFloat} {cfg : Settings}.

(** [session.query(T).filter(p).first()] and [.all()] *)
Definition query_first {T} (table : Store -> list T) (p : T -> bool)
  : Session (option T) :=
  fun db => Ok (find p (table db), db).

Definition query_all {T} (table : Store -> list T) (p : T -> bool)
  : Session (list T) :=
  fun db => Ok (filter p (table db), db).

(** Replacing one table, with its counter, and leaving the other two. *)
Definition with_users (db : Store) (rows : list User.t) (seq : Z) : Store :=
  {| users := rows; users_seq := seq;
     orders := orders db; orders_seq := orders_seq db;
     order_itens := order_itens db; order_itens_seq := order_itens_seq db |}.

Definition with_orders (db : Store) (rows : list Order.t) (seq : Z) : Store :=
  {| users := users db; users_seq := users_seq db;
     orders := rows; orders_seq := seq;
     order_itens := order_itens db; order_itens_seq := order_itens_seq db |}.

Definition with_order_itens (db : Store) (rows : list OrderItens.t) (seq : Z)
  : Store :=
  {| users := users db; users_seq := users_seq db;
     orders := orders db; orders_seq := orders_seq db;
     order_itens := rows; order_itens_seq := seq |}.

(** [session.add(User(name, email, password, activated, admin))]: the row
    receives the next key, and the column default replaces a [None] flag. *)
Definition add_user (name email : string) (password : passlib.digest)
    (activated admin : option bool) : Session User.t :=
  fun db =>
    let row := {| User.id := users_seq db; User.name := name;
                  User.email := email; User.password := password;
                  User.activated := activated;
                  User.admin := match admin with Some b => b | None => false end |} in
    Ok (row, with_users db (users db ++ [row]) (users_seq db + 1)).

(** [session.add(Order(user=...))] with the constructor's defaults
    [status="pending"], [price=0].  The user key is stored as given: no
    handler looks the user up, and the store checks no foreign key. *)
Definition add_order (user : Z) : Session Order.t :=
  fun db =>
    let row := {| Order.id := orders_seq db; Order.user := user;
                  Order.status := "pending"; Order.price := num_zero |} in
    Ok (row, with_orders db (orders db ++ [row]) (orders_seq db + 1)).

(** [session.add(OrderItens(quantity, flavor, size, unit_price, order))] *)
Definition item_added (row : OrderItens.t) (db : Store) : Store :=
  with_order_itens db (order_itens db ++ [row]) (order_itens_seq db + 1).

Definition add_order_item (quantity : Z) (flavor : string) (size : Z)
    (unit_price : num) (order : Z) : Session OrderItens.t :=
  fun db =>
    let row := {| OrderItens.id := order_itens_seq db;
                  OrderItens.quantity := quantity;
                  OrderItens.flavor := flavor; OrderItens.size := size;
                  OrderItens.unit_price := unit_price;
                  OrderItens.order := order |} in
    Ok (row, item_added row db).

(** [session.delete(order_item)]: DELETE ... WHERE id = order_item.id *)
Definition item_deleted (order_item_id : Z) (db : Store) : Store :=
  with_order_itens db
    (filter (fun it => negb (OrderItens.id it =? order_item_id)) (order_itens db))
    (order_itens_seq db).

Definition delete_order_item (order_item : OrderItens.t) : Session unit :=
  fun db => Ok (tt, item_deleted (OrderItens.id order_item) db).

(** Writing a changed order back: UPDATE orders ... WHERE id = order.id *)
Definition written (order : Order.t) (db : Store) : Store :=
  with_orders db
    (map (fun o => if Order.id o =? Order.id order then order else o)
         (orders db))
    (orders_seq db).

Definition flush_order (order : Order.t) : Session unit :=
  fun db => Ok (tt, written order db).

(** [session.commit()].  Every handler commits after its last write and
    raises only before its first, so the commit has nothing left to decide. *)
Definition commit : Session unit := ret tt.

(** The [itens] relationship of an order, loaded lazily on first access.
    The load is a query of the session, so pending inserts and deletes are
    flushed before it runs and it sees them. *)
Definition itens (self : Order.t) : Session (list OrderItens.t) :=
  query_all order_itens (fun it => OrderItens.order it =? Order.id self).

Definition line_total (item : OrderItens.t) : num :=
  num_mul_int (OrderItens.unit_price item) (OrderItens.quantity item).

(** [Order.calculate_price]:
    [self.price = sum(item.unit_price * item.quantity for item in self.itens)] *)
Definition calculate_price (self : Order.t) : Session Order.t :=
  rows <- itens self ;;
  let self' := Order.set_price self (py_sum (map line_total rows)) in
  flush_order self' ;;
  ret self'.

End Persistence.

(* ===================================================================== *)
(** ** schemas.py *)

Module schemas.

Module UserSchema.
Record t := {
  name : string;
  email : string;
  password : string;
  activated : option bool;
  admin : option bool }.
End UserSchema.

Module OrderSchema.
Record t := { user_id : Z }.
End OrderSchema.

Module LoginSchema.
Record t := { email : string; password : string }.
End LoginSchema.

(** No field carries a constraint: any integer and any float validate. *)
Module OrderItemSchema.
Section WithFloat.
Context {F : PyFloat}.
Record t := {
  quantity : Z;
  flavor : string;
  size : Z;
  unit_price : num }.
End WithFloat.
End OrderItemSchema.

End schemas.

(** Truth value of an [Optional[bool]] and of a query result. *)
Definition truthy (b : option bool) : bool :=
  match b with Some true => true | _ => false end.

Definition found {T} (row : option T) : bool :=
  match row with Some _ => true | None => false end.

(* ===================================================================== *)
(** ** dependencies.py *)

Module dependencies.
Section WithEnvironment.
Context {F : PyFloat} {cfg : Settings}.

(** [OAuth2PasswordBearer]: without a bearer token in the request the
    dependency itself answers 401. *)
Definition oath2_schema (authorization : option jose.token)
  : Session jose.token :=
  match authorization with
  | Some token => ret token
  | None => raise (HTTPException 401 "Not authenticated")
  end.

(** [verify_token].  The [try] block covers the decoding and the [int]
    conversion and catches [JWTError] only. *)
Definition verify_token (authorization : option jose.token) (now : Z)
  : Session User.t :=
  token <- oath2_schema authorization ;;
  match jose.decode token SECRET_KEY ALGORITHM now with
  | None => raise (HTTPException 401 "Access denied, check token validity")
  | Some dict_info =>
      match jose.sub dict_info with
      | None => raise TypeError
      | Some s =>
          match py_int s with
          | None => raise ValueError
          | Some user_id =>
              user <- query_first users (fun u => User.id u =? user_id) ;;
              match user with
              | None => raise (HTTPException 401 "Invalid access")
              | Some user => ret user
              end
          end
      end
  end.

End WithEnvironment.
End dependencies.

(* ===================================================================== *)
(** ** routers/auth_routers.py *)

Module auth_routers.
Import schemas dependencies.
Section WithEnvironment.
Context {F : PyFloat} {cfg : Settings}.

(** [get_token(user_id, token_time)] at second [now]; [token_time] in
    seconds. *)
Definition get_token (user_id : Z) (token_time : Z) (now : Z) : jose.token :=
  let expiration_date_timestamp := now + token_time in
  let dict_info := {| jose.sub := Some (py_str user_id);
                      jose.exp := Some expiration_date_timestamp |} in
  jose.encode dict_info SECRET_KEY ALGORITHM.

(** The default of [token_time], [timedelta(minutes=ACCESS_TOKEN_EXPIRE_MINUTES)],
    and [timedelta(days=7)]. *)
Definition access_token_time : Z := 60 * ACCESS_TOKEN_EXPIRE_MINUTES.
Definition refresh_token_time : Z := 7 * 86400.

(** [authenticate_user]; [None] is the [False] the source returns. *)
Definition authenticate_user (email password : string)
  : Session (option User.t) :=
  user <- query_first users (fun u => String.eqb (User.email u) email) ;;
  match user with
  | None => ret None
  | Some user =>
      if negb (passlib.verify password (User.password user)) then ret None
      else ret (Some user)
  end.

Definition home : Session (string * bool) :=
  ret ("You have accessed the default authentication route", false).

Definition registered (email : string) : string :=
  ("User " ++ email ++ " registered successfully.")%string.

(** The body of [POST /auth/signup].  [current_user] is what the
    [Depends(verify_token)] parameter is bound to; the body itself tests it
    for absence. *)
Definition signup (user_schema : UserSchema.t) (current_user : option User.t)
    (salt : string) : Session string :=
  existing_user <- query_first users
      (fun u => String.eqb (User.email u) (UserSchema.email user_schema)) ;;
  raise_if (found existing_user)
    (HTTPException 400 "This user already exists with this email.") ;;
  admin_user <- query_first users (fun u => User.admin u) ;;
  (if found admin_user && truthy (UserSchema.admin user_schema) then
     raise_if (match current_user with
               | None => true
               | Some current_user => negb (User.admin current_user)
               end)
       (HTTPException 403 "Only admins can create new admin users.")
   else ret tt) ;;
  let hash_password := passlib.hash salt (UserSchema.password user_schema) in
  add_user (UserSchema.name user_schema) (UserSchema.email user_schema)
           hash_password
           (UserSchema.activated user_schema) (UserSchema.admin user_schema) ;;
  commit ;;
  ret (registered (UserSchema.email user_schema)).

(** The body of [POST /auth/signup_admin] (the second function named
    [signup] in the source). *)
Definition signup_admin (user_schema : UserSchema.t) (salt : string)
  : Session string :=
  existing_user <- query_first users
      (fun u => String.eqb (User.email u) (UserSchema.email user_schema)) ;;
  if found existing_user then
    raise (HTTPException 400 "This user already exists with this email.")
  else
    let hash_password :=
      passlib.hash salt (substring 0 72 (UserSchema.password user_schema)) in
    add_user (UserSchema.name user_schema) (UserSchema.email user_schema)
             hash_password
             (UserSchema.activated user_schema) (UserSchema.admin user_schema) ;;
    commit ;;
    ret (registered (UserSchema.email user_schema)).

Record Tokens := {
  access_token : jose.token;
  refresh_token : option jose.token;
  token_type : string }.

Definition login (login_schema : LoginSchema.t) (now : Z) : Session Tokens :=
  user <- authenticate_user (LoginSchema.email login_schema)
                            (LoginSchema.password login_schema) ;;
  match user with
  | None => raise (HTTPException 400 "User not found or invalid password.")
  | Some user =>
      let access_token := get_token (User.id user) access_token_time now in
      let refresh_token := get_token (User.id user) refresh_token_time now in
      ret {| access_token := access_token;
             refresh_token := Some refresh_token;
             token_type := "Bearer" |}
  end.

Definition login_form (username password : string) (now : Z)
  : Session Tokens :=
  user <- authenticate_user username password ;;
  match user with
  | None => raise (HTTPException 400 "User not found or invalid password.")
  | Some user =>
      let access_token := get_token (User.id user) access_token_time now in
      ret {| access_token := access_token;
             refresh_token := None;
             token_type := "Bearer" |}
  end.

Definition user_refresh_token (user : User.t) (now : Z) : Session Tokens :=
  let access_token := get_token (User.id user) access_token_time now in
  ret {| access_token := access_token;
         refresh_token := None;
         token_type := "Bearer" |}.

End WithEnvironment.
End auth_routers.

(* ===================================================================== *)
(** ** routers/order_routers.py *)

Module order_routers.
Import schemas dependencies.
Section WithEnvironment.
Context {F : PyFloat} {cfg : Settings}.

Definition not_authorized : exn :=
  HTTPException 403 "You are not authorized to make this request.".

Definition orders_home : Session string :=
  ret "You have accessed the order route".

Definition order (order_schema : OrderSchema.t) (user : User.t)
  : Session Z :=
  if negb (User.admin user)
     && negb (User.id user =? OrderSchema.user_id order_schema) then
    raise not_authorized
  else
    new_order <- add_order (OrderSchema.user_id order_schema) ;;
    commit ;;
    ret (Order.id new_order).

Definition list_orders (user : User.t) : Session (list Order.t) :=
  if negb (User.admin user) then
    raise not_authorized
  else
    orders_list <- query_all orders (fun _ => true) ;;
    ret orders_list.

Definition list_user_orders (user_id : Z) (user : User.t)
  : Session (list Order.t) :=
  if negb (User.admin user) && negb (User.id user =? user_id) then
    raise not_authorized
  else
    user_orders_list <- query_all orders (fun o => Order.user o =? user_id) ;;
    ret user_orders_list.

(** Returns [qnt_order_itens] and the order. *)
Definition get_order (order_id : Z) (user : User.t)
  : Session (Z * Order.t) :=
  order <- query_first orders (fun o => Order.id o =? order_id) ;;
  match order with
  | None => raise (HTTPException 400 "Order not found.")
  | Some order =>
      raise_if (negb (User.admin user)
                && negb (User.id user =? Order.user order))
        not_authorized ;;
      rows <- itens order ;;
      ret (Z.of_nat (List.length rows), order)
  end.

(** Returns [order_item_id] and [order_price]. *)
Definition add_iten_order (order_id : Z) (order_item_schema : OrderItemSchema.t)
    (user : User.t) : Session (Z * num) :=
  order <- query_first orders (fun o => Order.id o =? order_id) ;;
  match order with
  | None => raise (HTTPException 400 "Order not found.")
  | Some order =>
      raise_if (negb (User.admin user)
                && negb (User.id user =? Order.user order))
        not_authorized ;;
      order_item <- add_order_item
                      (OrderItemSchema.quantity order_item_schema)
                      (OrderItemSchema.flavor order_item_schema)
                      (OrderItemSchema.size order_item_schema)
                      (OrderItemSchema.unit_price order_item_schema)
                      order_id ;;
      order <- calculate_price order ;;
      commit ;;
      ret (OrderItens.id order_item, Order.price order)
  end.

(** Returns [order_itens] and the order.  An item whose order row is
    missing makes [order] be [None]: an admin then gets past the check (the
    [and] stops at [not user.admin]) and fails in [order.calculate_price()],
    anybody else fails in [order.user]. *)
Definition remove_iten_order (order_item_id : Z) (user : User.t)
  : Session (list OrderItens.t * Order.t) :=
  order_item <- query_first order_itens
                  (fun it => OrderItens.id it =? order_item_id) ;;
  match order_item with
  | None => raise (HTTPException 400 "Item not found.")
  | Some order_item =>
      order <- query_first orders
                 (fun o => Order.id o =? OrderItens.order order_item) ;;
      match order with
      | None => raise AttributeError
      | Some order =>
          raise_if (negb (User.admin user)
                    && negb (User.id user =? Order.user order))
            not_authorized ;;
          delete_order_item order_item ;;
          order <- calculate_price order ;;
          commit ;;
          rows <- itens order ;;
          ret (rows, order)
      end
  end.

Definition cancel_order (order_id : Z) (user : User.t) : Session Order.t :=
  order <- query_first orders (fun o => Order.id o =? order_id) ;;
  match order with
  | None => raise (HTTPException 400 "Order not found.")
  | Some order =>
      raise_if (negb (User.admin user)
                && negb (User.id user =? Order.user order))
        not_authorized ;;
      let order := Order.set_status order "canceled" in
      flush_order order ;;
      commit ;;
      ret order
  end.

Definition complete_order (order_id : Z) (user : User.t) : Session Order.t :=
  order <- query_first orders (fun o => Order.id o =? order_id) ;;
  match order with
  | None => raise (HTTPException 400 "Order not found.")
  | Some order =>
      raise_if (negb (User.admin user)
                && negb (User.id user =? Order.user order))
        not_authorized ;;
      let order := Order.set_status order "completed" in
      flush_order order ;;
      commit ;;
      ret order
  end.

End WithEnvironment.
End order_routers.

(* ===================================================================== *)
(** ** main.py: the application *)

Module main.
Import schemas dependencies.
Section WithEnvironment.
Context {F : PyFloat} {cfg : Settings}.

(** What a request brings besides its route and payload. *)
Record Context_ := {
  authorization : option jose.token;
  now : Z;
  salt : string }.

(** The routes of the two routers.  (The source registers the last two
    order routes under the prefix without a separating slash,
    [/ordersorder/cancel/...] and [/ordersorder/complete/...]; they are
    routes of the order router all the same.) *)
Inductive auth_request :=
| GET_auth
| POST_auth_signup (user_schema : UserSchema.t)
| POST_auth_signup_admin (user_schema : UserSchema.t)
| POST_auth_login (login_schema : LoginSchema.t)
| POST_auth_login_form (username password : string)
| GET_auth_refresh.

Inductive order_request :=
| GET_orders
| POST_orders_order (order_schema : OrderSchema.t)
| GET_orders_list
| GET_orders_list_orders_user (user_id : Z)
| GET_orders_order (order_id : Z)
| POST_orders_order_add_item (order_id : Z) (order_item_schema : OrderItemSchema.t)
| POST_orders_order_remove_item (order_item_id : Z)
| POST_orders_cancel (order_id : Z)
| POST_orders_complete (order_id : Z).

Inductive request :=
| Auth (r : auth_request)
| Orders (r : order_request).

Inductive response :=
| Message (text : string)
| AuthHome (body : string * bool)
| Issued (tokens : auth_routers.Tokens)
| OrderCreated (order_id : Z)
| OrdersList (orders_list : list Order.t)
| OrderDetail (body : Z * Order.t)
| ItemCreated (body : Z * num)
| ItemDeleted (body : list OrderItens.t * Order.t)
| OrderUpdated (order : Order.t).

Definition fmap {A B} (f : A -> B) (c : Session A) : Session B :=
  a <- c ;; ret (f a).

(** A route with [Depends(verify_token)], on the router or on a parameter:
    the dependency is resolved once, before the body, and its result is the
    body's [user]. *)
Definition Depends_verify_token {A} (ctx : Context_)
    (body : User.t -> Session A) : Session A :=
  user <- verify_token (authorization ctx) (now ctx) ;;
  body user.

(** The body of an order route once its [user] is known. *)
Definition order_route (r : order_request) (user : User.t)
  : Session response :=
  match r with
  | GET_orders => fmap Message order_routers.orders_home
  | POST_orders_order order_schema =>
      fmap OrderCreated (order_routers.order order_schema user)
  | GET_orders_list => fmap OrdersList (order_routers.list_orders user)
  | GET_orders_list_orders_user user_id =>
      fmap OrdersList (order_routers.list_user_orders user_id user)
  | GET_orders_order order_id =>
      fmap OrderDetail (order_routers.get_order order_id user)
  | POST_orders_order_add_item order_id order_item_schema =>
      fmap ItemCreated
        (order_routers.add_iten_order order_id order_item_schema user)
  | POST_orders_order_remove_item order_item_id =>
      fmap ItemDeleted (order_routers.remove_iten_order order_item_id user)
  | POST_orders_cancel order_id =>
      fmap OrderUpdated (order_routers.cancel_order order_id user)
  | POST_orders_complete order_id =>
      fmap OrderUpdated (order_routers.complete_order order_id user)
  end.

(** [APIRouter(prefix="/orders", dependencies=[Depends(verify_token)])] *)
Definition order_router (ctx : Context_) (r : order_request)
  : Session response :=
  Depends_verify_token ctx (order_route r).

(** [APIRouter(prefix="/auth")]: the dependency is on two routes only. *)
Definition auth_router (ctx : Context_) (r : auth_request)
  : Session response :=
  match r with
  | GET_auth => fmap AuthHome auth_routers.home
  | POST_auth_signup user_schema =>
      Depends_verify_token ctx (fun current_user =>
        fmap Message
          (auth_routers.signup user_schema (Some current_user) (salt ctx)))
  | POST_auth_signup_admin user_schema =>
      fmap Message (auth_routers.signup_admin user_schema (salt ctx))
  | POST_auth_login login_schema =>
      fmap Issued (auth_routers.login login_schema (now ctx))
  | POST_auth_login_form username password =>
      fmap Issued (auth_routers.login_form username password (now ctx))
  | GET_auth_refresh =>
      Depends_verify_token ctx (fun user =>
        fmap Issued (auth_routers.user_refresh_token user (now ctx)))
  end.

Definition app (ctx : Context_) (r : request) : Session response :=
  match r with
  | Auth r => auth_router ctx r
  | Orders r => order_router ctx r
  end.

(** One request served: the store afterwards. *)
Definition serve (db : Store) (ctx : Context_) (r : request) : Store :=
  match app ctx r db with
  | Ok (_, db') => db'
  | Raise _ => db
  end.

Inductive reachable : Store -> Prop :=
| reachable_empty : reachable empty_store
| reachable_serve db ctx r : reachable db -> reachable (serve db ctx r).

End WithEnvironment.
End main.

(* ===================================================================== *)
(** ** Vocabulary of the properties *)

Section Vocabulary.
Context {F : PyFloat} {cfg : Settings}.

Definition find_order (order_id : Z) (db : Store) : option Order.t :=
  find (fun o => Order.id o =? order_id) (orders db).

Definition find_item (order_item_id : Z) (db : Store) : option OrderItens.t :=
  find (fun it => OrderItens.id it =? order_item_id) (order_itens db).

Definition find_user (user_id : Z) (db : Store) : option User.t :=
  find (fun u => User.id u =? user_id) (users db).

Definition find_email (email : string) (db : Store) : option User.t :=
  find (fun u => String.eqb (User.email u) email) (users db).

Definition admin_exists (db : Store) : bool :=
  existsb User.admin (users db).

(** The items of an order as the store has them. *)
Definition itens_of (order_id : Z) (db : Store) : list OrderItens.t :=
  filter (fun it => OrderItens.order it =? order_id) (order_itens db).

(** The sum over the order's current items of quantity * unit_price. *)
Definition order_total (order_id : Z) (db : Store) : num :=
  py_sum (map line_total (itens_of order_id db)).

Definition price_of (order_id : Z) (db : Store) : option num :=
  option_map Order.price (find_order order_id db).

Definition status_in (order_id : Z) (db : Store) : option string :=
  option_map Order.status (find_order order_id db).

(** The row [add_iten_order] inserts for a payload, and an order with its
    price set to the total of its items in a store. *)
Definition item_row (order_id : Z) (s : schemas.OrderItemSchema.t) (db : Store)
  : OrderItens.t :=
  {| OrderItens.id := order_itens_seq db;
     OrderItens.quantity := schemas.OrderItemSchema.quantity s;
     OrderItens.flavor := schemas.OrderItemSchema.flavor s;
     OrderItens.size := schemas.OrderItemSchema.size s;
     OrderItens.unit_price := schemas.OrderItemSchema.unit_price s;
     OrderItens.order := order_id |}.

Definition repriced (o : Order.t) (db : Store) : Order.t :=
  Order.set_price o (order_total (Order.id o) db).

(** The row [order] inserts. *)
Definition order_row (user : Z) (db : Store) : Order.t :=
  {| Order.id := orders_seq db; Order.user := user;
     Order.status := "pending"; Order.price := num_zero |}.

(** What serving a request can do to the store: nothing, one more user,
    one more order, or one of the four order mutations on rows that the
    handler found. *)
Inductive effect (db : Store) : main.request -> Store -> Prop :=
| effect_nothing r : effect db r db
| effect_user r row :
    effect db r (with_users db (users db ++ [row]) (users_seq db + 1))
| effect_order order_schema :
    effect db (main.Orders (main.POST_orders_order order_schema))
      (with_orders db
         (orders db ++ [order_row (schemas.OrderSchema.user_id order_schema) db])
         (orders_seq db + 1))
| effect_add_item order_id s o :
    find_order order_id db = Some o ->
    effect db (main.Orders (main.POST_orders_order_add_item order_id s))
      (written (repriced o (item_added (item_row order_id s db) db))
               (item_added (item_row order_id s db) db))
| effect_remove_item order_item_id it o :
    find_item order_item_id db = Some it ->
    find_order (OrderItens.order it) db = Some o ->
    effect db (main.Orders (main.POST_orders_order_remove_item order_item_id))
      (written (repriced o (item_deleted (OrderItens.id it) db))
               (item_deleted (OrderItens.id it) db))
| effect_cancel order_id o :
    find_order order_id db = Some o ->
    effect db (main.Orders (main.POST_orders_cancel order_id))
      (written (Order.set_status o "canceled") db)
| effect_complete order_id o :
    find_order order_id db = Some o ->
    effect db (main.Orders (main.POST_orders_complete order_id))
      (written (Order.set_status o "completed") db).


Definition sets_status_of (order_id : Z) (r : main.request) : Prop :=
  match r with
  | main.Orders (main.POST_orders_cancel target)
  | main.Orders (main.POST_orders_complete target) =>
      target = order_id
  | _ => False
  end.

(** The routes of the auth router that declare no [Depends(verify_token)]. *)
Definition open_route (r : main.auth_request) : bool :=
  match r with
  | main.POST_auth_signup _ | main.GET_auth_refresh => false
  | _ => true
  end.

(** The principal of a signup is present and is itself admin. *)
Definition admin_principal (current_user : option User.t) : Prop :=
  exists u, current_user = Some u /\ User.admin u = true.


(** The row a signup inserts, given the digest it computed. *)
Definition user_row (s : schemas.UserSchema.t) (digest : passlib.digest)
    (db : Store) : User.t :=
  {| User.id := users_seq db;
     User.name := schemas.UserSchema.name s;
     User.email := schemas.UserSchema.email s;
     User.password := digest;
     User.activated := schemas.UserSchema.activated s;
     User.admin := match schemas.UserSchema.admin s with
                   | Some b => b
                   | None => false
                   end |}.


(** The expiry of a token has not passed at second [now]. *)
Definition unexpired (exp : option Z) (now : Z) : Prop :=
  match exp with
  | Some e => now <= e
  | None => True
  end.

(** Outcomes of running a handler. *)
Definition succeeds {A} (c : Session A) (db : Store) : Prop :=
  exists a db', c db = Ok (a, db').

Definition fails_with {A} (status_code : Z) (c : Session A) (db : Store) : Prop :=
  exists detail, c db = Raise (HTTPException status_code detail).

(** The principal is admin or owns the order. *)
Definition admin_or_owner (principal : User.t) (order : Order.t) : Prop :=
  User.admin principal = true \/ User.id principal = Order.user order.


(** Consistency of the store: item keys are distinct and below their
    counter, order keys are below theirs, every item belongs to an order
    that exists, and every price is the total of the order's items. *)
Record consistent (db : Store) : Prop := {
  item_keys_distinct : NoDup (map OrderItens.id (order_itens db));
  item_keys_bounded :
    Forall (fun it => OrderItens.id it < order_itens_seq db) (order_itens db);
  order_keys_bounded :
    Forall (fun o => Order.id o < orders_seq db) (orders db);
  item_orders_exist :
    Forall (fun it => find_order (OrderItens.order it) db <> None)
           (order_itens db);
  prices_are_totals :
    Forall (fun o => Order.price o = order_total (Order.id o) db) (orders db) }.

End Vocabulary.

(* ===================================================================== *)
(** ** A concrete environment *)

(** IEEE-754 doubles with [sum] as a left fold from [0]; quantities are
    taken within 63 bits, the range of the integer column. *)
Definition float_of_int (n : Z) : float :=
  match n with
  | Z0 => 0%float
  | Zpos _ => PrimFloat.of_uint63 (Uint63.of_Z n)
  | Zneg _ => PrimFloat.opp (PrimFloat.of_uint63 (Uint63.of_Z (- n)))
  end.

#[export] Instance binary64 : PyFloat := {|
  num := float;
  num_zero := 0%float;
  num_mul_int := fun x n => PrimFloat.mul x (float_of_int n);
  py_sum := fun l => fold_left PrimFloat.add l 0%float;
  py_sum_nil := eq_refl |}.

#[export] Instance sample_settings : Settings := {|
  SECRET_KEY := "s3cr3t";
  ALGORITHM := "HS256";
  ACCESS_TOKEN_EXPIRE_MINUTES := 30 |}.

Module Fixture.
Import schemas main.

Definition ana : UserSchema.t :=
  {| UserSchema.name := "Ana"; UserSchema.email := "ana@pizza.io";
     UserSchema.password := "margherita";
     UserSchema.activated := Some true; UserSchema.admin := Some true |}.

Definition bruno : UserSchema.t :=
  {| UserSchema.name := "Bruno"; UserSchema.email := "bruno@pizza.io";
     UserSchema.password := "calabresa";
     UserSchema.activated := Some true; UserSchema.admin := Some false |}.

Definition carla : UserSchema.t :=
  {| UserSchema.name := "Carla"; UserSchema.email := "carla@pizza.io";
     UserSchema.password := "quattro";
     UserSchema.activated := None; UserSchema.admin := Some true |}.

Definition anonymous (now : Z) : Context_ :=
  {| authorization := None; now := now; salt := "NaCl" |}.

Definition bearer (user_id token_time issued now : Z) : Context_ :=
  {| authorization := Some (auth_routers.get_token user_id token_time issued);
     now := now; salt := "NaCl" |}.

(** Ana (admin, key 1) and Bruno (key 2) registered through
    [/auth/signup_admin]. *)
Definition two_users : Store :=
  serve (serve empty_store (anonymous 1000) (Auth (POST_auth_signup_admin ana)))
        (anonymous 1001) (Auth (POST_auth_signup_admin bruno)).

Definition as_ana : Context_ := bearer 1 1800 2000 2500.
Definition as_bruno : Context_ := bearer 2 1800 2000 2500.

Definition item (quantity : Z) (unit_price : float) : OrderItemSchema.t :=
  {| OrderItemSchema.quantity := quantity; OrderItemSchema.flavor := "mussarela";
     OrderItemSchema.size := 8; OrderItemSchema.unit_price := unit_price |}.

(** Bruno opens order 1 and puts three items at 2.50 into it. *)
Definition one_order : Store :=
  serve (serve two_users as_bruno
               (Orders (POST_orders_order {| OrderSchema.user_id := 2 |})))
        as_bruno (Orders (POST_orders_order_add_item 1 (item 3 2.5%float))).

(** The rows behind the fixtures, as the handlers find them. *)
Definition ana_row : User.t :=
  {| User.id := 1; User.name := "Ana"; User.email := "ana@pizza.io";
     User.password := passlib.hash "NaCl" "margherita";
     User.activated := Some true; User.admin := true |}.

Definition bruno_row : User.t :=
  {| User.id := 2; User.name := "Bruno"; User.email := "bruno@pizza.io";
     User.password := passlib.hash "NaCl" "calabresa";
     User.activated := Some true; User.admin := false |}.

Definition order_one : Order.t :=
  {| Order.id := 1; Order.user := 2; Order.status := "pending";
     Order.price := 7.5%float |}.

Definition bruno_login : LoginSchema.t :=
  {| LoginSchema.email := "bruno@pizza.io";
     LoginSchema.password := "calabresa" |}.

(** What Bruno's login at second 2000 returns. *)
Definition bruno_tokens : auth_routers.Tokens :=
  {| auth_routers.access_token :=
       auth_routers.get_token 2 auth_routers.access_token_time 2000;
     auth_routers.refresh_token :=
       Some (auth_routers.get_token 2 auth_routers.refresh_token_time 2000);
     auth_routers.token_type := "Bearer" |}.

End Fixture.

(* ===================================================================== *)
(** ** Further vocabulary *)

Section MoreVocabulary.
Context {F : PyFloat} {cfg : Settings}.

(** The orders a response hands to its caller. *)
Definition orders_in (resp : main.response) : list Order.t :=
  match resp with
  | main.OrdersList orders_list => orders_list
  | main.OrderDetail (_, order) => [order]
  | main.ItemDeleted (_, order) => [order]
  | main.OrderUpdated order => [order]
  | _ => []
  end.

(** The users table is keyed: keys are distinct and below the counter, and
    no e-mail is registered twice. *)
Record users_keyed (db : Store) : Prop := {
  user_keys_distinct : NoDup (map User.id (users db));
  user_keys_bounded :
    Forall (fun u => User.id u < users_seq db) (users db);
  emails_distinct : NoDup (map User.email (users db)) }.

(** No two orders share a key. *)
Definition order_keys_distinct (db : Store) : Prop :=
  NoDup (map Order.id (orders db)).

(** The credentials a signup payload registers. *)
Definition credentials (s : schemas.UserSchema.t) : schemas.LoginSchema.t :=
  {| schemas.LoginSchema.email := schemas.UserSchema.email s;
     schemas.LoginSchema.password := schemas.UserSchema.password s |}.

Definition credentials_with (s : schemas.UserSchema.t) (password : string)
  : schemas.LoginSchema.t :=
  {| schemas.LoginSchema.email := schemas.UserSchema.email s;
     schemas.LoginSchema.password := password |}.

(** What [login] and [login_form] raise. *)
Definition bad_credentials : exn :=
  HTTPException 400 "User not found or invalid password.".

(** A request context carrying a given token. *)
Definition with_token (token : jose.token) (now : Z) (salt : string)
  : main.Context_ :=
  {| main.authorization := Some token; main.now := now; main.salt := salt |}.

End MoreVocabulary.

(* ===================================================================== *)
(** ** Further fixtures *)

Module Fixture2.
Import schemas main Fixture.

(** Ana opens order 2 for herself, next to Bruno's order 1. *)
Definition two_orders : Store :=
  serve one_order as_ana (Orders (POST_orders_order {| OrderSchema.user_id := 1 |})).

Definition order_two : Order.t :=
  {| Order.id := 2; Order.user := 1; Order.status := "pending";
     Order.price := 0%float |}.


End Fixture2.

(* ===================================================================== *)
(** ** Running the handlers *)

Import schemas dependencies auth_routers order_routers main.

Lemma filter_all {T} (l : list T) : filter (fun _ => true) l = l.
Proof. induction l as [|x l IH]; simpl; congruence. Qed.

Lemma gate_bool (a b : bool) : negb a && negb b = negb (a || b).
Proof. now destruct a, b. Qed.

(** A handler whose first query found the order [Ho] speaks of comes down
    to its ownership test. *)
Ltac gate_found Ho :=
  unfold bind, query_first; unfold find_order in Ho;
  rewrite Ho, gate_bool; now destruct (User.admin _ || _).

(** A handler whose query found nothing raises at once. *)
Ltac not_found H :=
  unfold bind, query_first;
  first [progress unfold find_order in H | progress unfold find_item in H];
  rewrite H.

Section Handlers.
Context {F : PyFloat} {cfg : Settings}.

Lemma admin_or_owner_iff (p : User.t) (o : Order.t) :
  admin_or_owner p o <-> User.admin p || (User.id p =? Order.user o) = true.
Proof.
  unfold admin_or_owner. rewrite orb_true_iff, Z.eqb_eq. tauto.
Qed.


Lemma get_order_run order_id p o db :
  find_order order_id db = Some o ->
  get_order order_id p db =
    if User.admin p || (User.id p =? Order.user o)
    then Ok ((Z.of_nat (List.length (itens_of (Order.id o) db)), o), db)
    else Raise not_authorized.
Proof.
  intros Ho. unfold get_order. gate_found Ho.
Qed.

Lemma add_iten_order_run order_id s p o db :
  find_order order_id db = Some o ->
  add_iten_order order_id s p db =
    if User.admin p || (User.id p =? Order.user o)
    then let db1 := item_added (item_row order_id s db) db in
         Ok ((order_itens_seq db, order_total (Order.id o) db1),
             written (repriced o db1) db1)
    else Raise not_authorized.
Proof.
  intros Ho. unfold add_iten_order. gate_found Ho.
Qed.

Lemma remove_iten_order_run order_item_id p it o db :
  find_item order_item_id db = Some it ->
  find_order (OrderItens.order it) db = Some o ->
  remove_iten_order order_item_id p db =
    if User.admin p || (User.id p =? Order.user o)
    then let db1 := item_deleted (OrderItens.id it) db in
         let db2 := written (repriced o db1) db1 in
         Ok ((itens_of (Order.id o) db2, repriced o db1), db2)
    else Raise not_authorized.
Proof.
  intros Hit Ho. unfold remove_iten_order. not_found Hit. gate_found Ho.
Qed.

Lemma cancel_order_run order_id p o db :
  find_order order_id db = Some o ->
  cancel_order order_id p db =
    if User.admin p || (User.id p =? Order.user o)
    then Ok (Order.set_status o "canceled",
             written (Order.set_status o "canceled") db)
    else Raise not_authorized.
Proof.
  intros Ho. unfold cancel_order. gate_found Ho.
Qed.

Lemma complete_order_run order_id p o db :
  find_order order_id db = Some o ->
  complete_order order_id p db =
    if User.admin p || (User.id p =? Order.user o)
    then Ok (Order.set_status o "completed",
             written (Order.set_status o "completed") db)
    else Raise not_authorized.
Proof.
  intros Ho. unfold complete_order. gate_found Ho.
Qed.

End Handlers.

(* ===================================================================== *)
(** ** Access control *)

Section AccessControl.
Context {F : PyFloat} {cfg : Settings}.



(** C8: listing all orders succeeds, with every order of the store, exactly
    for an admin principal, and answers 403 to every other principal,
    whatever orders that principal owns. *)
Theorem list_orders_admin_only (p : User.t) (db : Store) :
  (succeeds (list_orders p) db <-> User.admin p = true)
  /\ (User.admin p = true <-> list_orders p db = Ok (orders db, db))
  /\ (User.admin p = false <-> fails_with 403 (list_orders p) db).
Proof.
  unfold succeeds, fails_with, list_orders, not_authorized.
  destruct (User.admin p); simpl;
    unfold bind, query_all, ret, raise; rewrite ?filter_all.
  - repeat split; eauto; try discriminate.
    intros (d & Hd). discriminate.
  - repeat split; eauto; try discriminate.
    intros (a & db' & H). discriminate.
Qed.

End AccessControl.

(* ===================================================================== *)
(** ** What a request does to the store *)

Section Effects.
Context {F : PyFloat} {cfg : Settings}.

Lemma verify_token_pure authorization now db user db' :
  verify_token authorization now db = Ok (user, db') ->
  db' = db /\ In user (users db).
Proof.
  unfold verify_token, oath2_schema, bind, ret, raise, query_first.
  destruct authorization as [t|]; [|discriminate].
  destruct (jose.decode _ _ _ _) as [d|]; [|discriminate].
  destruct (jose.sub d) as [s|]; [|discriminate].
  destruct (py_int s) as [user_id|]; [|discriminate].
  destruct (find _ (users db)) as [u|] eqn:Hu; [|discriminate].
  intros [= <- <-]. split; [reflexivity|].
  now apply find_some in Hu.
Qed.

Lemma Depends_verify_token_run {A} ctx (body : User.t -> Session A) db :
  (exists e, verify_token (authorization ctx) (now ctx) db = Raise e
             /\ Depends_verify_token ctx body db = Raise e)
  \/ (exists user, verify_token (authorization ctx) (now ctx) db = Ok (user, db)
                   /\ Depends_verify_token ctx body db = body user db).
Proof.
  unfold Depends_verify_token, bind.
  destruct (verify_token _ _ db) as [[user db']|e] eqn:Hv.
  - right. apply verify_token_pure in Hv as Hp. destruct Hp as [-> _]. eauto.
  - left. eauto.
Qed.

Lemma fmap_run {A B} (f : A -> B) (c : Session A) db :
  fmap f c db = match c db with
                | Ok (a, db') => Ok (f a, db')
                | Raise e => Raise e
                end.
Proof. unfold fmap, bind, ret. now destruct (c db) as [[a db']|e]. Qed.

Lemma authenticate_user_pure email password db :
  exists user, authenticate_user email password db = Ok (user, db).
Proof.
  unfold authenticate_user, bind, query_first, ret.
  destruct (find _ (users db)) as [u|]; [|eauto].
  destruct (negb _); eauto.
Qed.

Lemma signup_effect user_schema current_user salt db r :
  effect db r match signup user_schema current_user salt db with
              | Ok (_, db') => db'
              | Raise _ => db
              end.
Proof.
  unfold signup, bind, query_first, raise_if, raise, ret, add_user, commit.
  destruct (found (find _ (users db))); [constructor|].
  destruct (found (find _ (users db)) && _).
  - destruct (match current_user with None => true | Some _ => _ end);
      constructor.
  - constructor.
Qed.

Lemma signup_admin_effect user_schema salt db r :
  effect db r match signup_admin user_schema salt db with
              | Ok (_, db') => db'
              | Raise _ => db
              end.
Proof.
  unfold signup_admin, bind, query_first, raise, ret, add_user, commit.
  destruct (found (find _ (users db))); constructor.
Qed.

Lemma order_route_effect r user db :
  effect db (Orders r) match order_route r user db with
                       | Ok (_, db') => db'
                       | Raise _ => db
                       end.
Proof.
  destruct r; cbn [order_route]; rewrite fmap_run.
  - constructor.
  - unfold order, bind, ret, raise, add_order, commit.
    destruct (negb _ && negb _); constructor.
  - unfold list_orders, bind, ret, raise, query_all.
    destruct (negb _); constructor.
  - unfold list_user_orders, bind, ret, raise, query_all.
    destruct (negb _ && negb _); constructor.
  - destruct (find_order order_id db) as [o|] eqn:Ho.
    + rewrite (get_order_run _ user _ _ Ho).
      destruct (User.admin user || _); constructor.
    + unfold get_order. not_found Ho. constructor.
  - destruct (find_order order_id db) as [o|] eqn:Ho.
    + rewrite (add_iten_order_run _ order_item_schema user _ _ Ho).
      destruct (User.admin user || _); cbv zeta;
        [now apply effect_add_item | constructor].
    + unfold add_iten_order. not_found Ho. constructor.
  - destruct (find_item order_item_id db) as [it|] eqn:Hit.
    + destruct (find_order (OrderItens.order it) db) as [o|] eqn:Ho.
      * rewrite (remove_iten_order_run _ user _ _ _ Hit Ho).
        destruct (User.admin user || _); cbv zeta;
          [now apply effect_remove_item with (it := it) | constructor].
      * unfold remove_iten_order. not_found Hit. not_found Ho. constructor.
    + unfold remove_iten_order. not_found Hit. constructor.
  - destruct (find_order order_id db) as [o|] eqn:Ho.
    + rewrite (cancel_order_run _ user _ _ Ho).
      destruct (User.admin user || _);
        [now apply effect_cancel | constructor].
    + unfold cancel_order. not_found Ho. constructor.
  - destruct (find_order order_id db) as [o|] eqn:Ho.
    + rewrite (complete_order_run _ user _ _ Ho).
      destruct (User.admin user || _);
        [now apply effect_complete | constructor].
    + unfold complete_order. not_found Ho. constructor.
Qed.

(** Every request acts on the store through one of the listed effects. *)
Lemma serve_effect db ctx r : effect db r (serve db ctx r).
Proof.
  unfold serve, app. destruct r as [r|r].
  2:{ unfold order_router.
      destruct (Depends_verify_token_run ctx (order_route r) db)
        as [(e & _ & ->)|(user & _ & ->)]; [constructor|].
      apply order_route_effect. }
  - destruct r; cbn [auth_router].
    + constructor.
    + destruct (Depends_verify_token_run ctx
        (fun current_user => fmap Message
           (signup user_schema (Some current_user) (salt ctx))) db)
        as [(e & _ & ->)|(user & _ & ->)]; [constructor|].
      rewrite fmap_run.
      generalize (signup_effect user_schema (Some user) (salt ctx) db
                    (Auth (POST_auth_signup user_schema))).
      now destruct (signup _ _ _ db) as [[a db']|e].
    + rewrite fmap_run.
      generalize (signup_admin_effect user_schema (salt ctx) db
                    (Auth (POST_auth_signup_admin user_schema))).
      now destruct (signup_admin _ _ db) as [[a db']|e].
    + rewrite fmap_run. unfold login, bind.
      destruct (authenticate_user_pure
                  (LoginSchema.email login_schema)
                  (LoginSchema.password login_schema) db) as [u ->].
      destruct u; constructor.
    + rewrite fmap_run. unfold login_form, bind.
      destruct (authenticate_user_pure username password db) as [u ->].
      destruct u; constructor.
    + destruct (Depends_verify_token_run ctx
        (fun user => fmap Issued (user_refresh_token user (now ctx))) db)
        as [(e & _ & ->)|(user & _ & ->)]; constructor.
Qed.

End Effects.

(* ===================================================================== *)
(** ** Lookups after a write *)

Section Lookups.
Context {F : PyFloat} {cfg : Settings}.

Lemma find_map_same {T} (p : T -> bool) (f : T -> T) (l : list T) :
  (forall x, p (f x) = p x) ->
  find p (map f l) = option_map f (find p l).
Proof.
  intros Hp. induction l as [|x l IH]; simpl; [reflexivity|].
  rewrite Hp. now destruct (p x).
Qed.

Lemma find_order_some order_id db o :
  find_order order_id db = Some o ->
  Order.id o = order_id /\ In o (orders db).
Proof.
  intros H. apply find_some in H as [Hin Hid].
  apply Z.eqb_eq in Hid. now split.
Qed.

Lemma find_item_some order_item_id db it :
  find_item order_item_id db = Some it ->
  OrderItens.id it = order_item_id /\ In it (order_itens db).
Proof.
  intros H. apply find_some in H as [Hin Hid].
  apply Z.eqb_eq in Hid. now split.
Qed.

Lemma find_order_written order_id o db :
  find_order order_id (written o db) =
  option_map (fun x => if Order.id x =? Order.id o then o else x)
             (find_order order_id db).
Proof.
  unfold find_order, written; cbn [orders with_orders].
  apply find_map_same. intros x.
  destruct (Order.id x =? Order.id o) eqn:E; [|reflexivity].
  apply Z.eqb_eq in E. now rewrite E.
Qed.

(** An order that is found is still found after a write, with the written
    row in its place when the key is the written one. *)
Lemma find_order_written_same order_id o o' db :
  find_order order_id db = Some o ->
  Order.id o' = Order.id o ->
  find_order order_id (written o' db) = Some o'.
Proof.
  intros Ho Hid. rewrite find_order_written, Ho. simpl.
  now rewrite Hid, Z.eqb_refl.
Qed.

Lemma find_order_written_other order_id o' db :
  Order.id o' <> order_id ->
  find_order order_id (written o' db) = find_order order_id db.
Proof.
  intros Hid. rewrite find_order_written.
  destruct (find_order order_id db) as [x|] eqn:Hx; [|reflexivity].
  apply find_order_some in Hx as [Hx _]. simpl.
  destruct (Order.id x =? Order.id o') eqn:E; [|reflexivity].
  apply Z.eqb_eq in E. congruence.
Qed.

Lemma find_order_appended order_id row db seq o :
  find_order order_id db = Some o ->
  find_order order_id (with_orders db (orders db ++ [row]) seq) = Some o.
Proof.
  unfold find_order; cbn [orders with_orders]. intros H.
  induction (orders db) as [|x l IH]; [discriminate|].
  simpl in *. destruct (Order.id x =? order_id); auto.
Qed.

Lemma order_total_written order_id o db :
  order_total order_id (written o db) = order_total order_id db.
Proof. reflexivity. Qed.

Lemma find_order_item_added order_id row db :
  find_order order_id (item_added row db) = find_order order_id db.
Proof. reflexivity. Qed.

Lemma find_order_item_deleted order_id order_item_id db :
  find_order order_id (item_deleted order_item_id db) = find_order order_id db.
Proof. reflexivity. Qed.

Lemma itens_of_item_added order_id row db :
  itens_of order_id (item_added row db) =
  itens_of order_id db
  ++ (if OrderItens.order row =? order_id then [row] else []).
Proof.
  unfold itens_of, item_added; cbn [order_itens with_order_itens].
  now rewrite filter_app.
Qed.

Lemma filter_filter_absorb {T} (p q : T -> bool) (l : list T) :
  (forall x, In x l -> p x = true -> q x = true) ->
  filter p (filter q l) = filter p l.
Proof.
  induction l as [|x l IH]; intros H; simpl; [reflexivity|].
  destruct (q x) eqn:Q; simpl.
  - rewrite IH; [reflexivity|]. intros y Hy. apply H. now right.
  - destruct (p x) eqn:P.
    + rewrite (H x (or_introl eq_refl) P) in Q. discriminate.
    + apply IH. intros y Hy. apply H. now right.
Qed.

Lemma NoDup_key_unique {T} (key : T -> Z) (l : list T) (x y : T) :
  NoDup (map key l) -> In x l -> In y l -> key x = key y -> x = y.
Proof.
  induction l as [|z l IH]; simpl; [contradiction|].
  intros Hnd Hx Hy Hk. inversion Hnd as [|? ? Hout Hnd']; subst.
  destruct Hx as [->|Hx], Hy as [->|Hy]; auto.
  - exfalso. apply Hout. rewrite Hk. now apply in_map.
  - exfalso. apply Hout. rewrite <- Hk. now apply in_map.
Qed.

Lemma NoDup_map_filter {T} (key : T -> Z) (p : T -> bool) (l : list T) :
  NoDup (map key l) -> NoDup (map key (filter p l)).
Proof.
  induction l as [|x l IH]; simpl; intros Hnd; [constructor|].
  inversion Hnd as [|? ? Hout Hnd']; subst.
  destruct (p x); simpl; [constructor|]; auto.
  intros Hin. apply Hout. apply in_map_iff in Hin as (y & Hy & Hin).
  apply filter_In in Hin as [Hin _]. rewrite <- Hy. now apply in_map.
Qed.

(** Deleting an item by key leaves the items of every other order. *)
Lemma itens_of_item_deleted_other order_id it db :
  NoDup (map OrderItens.id (order_itens db)) ->
  In it (order_itens db) ->
  OrderItens.order it <> order_id ->
  itens_of order_id (item_deleted (OrderItens.id it) db) = itens_of order_id db.
Proof.
  intros Hnd Hin Hne.
  unfold itens_of, item_deleted; cbn [order_itens with_order_itens].
  apply filter_filter_absorb. intros x Hx Hox.
  apply Z.eqb_eq in Hox. apply negb_true_iff, Z.eqb_neq. intros Hk.
  assert (x = it) by (eapply NoDup_key_unique; eauto). congruence.
Qed.

End Lookups.

(* ===================================================================== *)
(** ** Consistency is an invariant *)

Section Invariant.
Context {F : PyFloat} {cfg : Settings}.

Lemma empty_store_consistent : consistent empty_store.
Proof. split; simpl; constructor. Qed.

Lemma consistent_with_users db rows seq :
  consistent db -> consistent (with_users db rows seq).
Proof. intros [H1 H2 H3 H4 H5]. now split. Qed.

(** An item never refers to a key the order counter has not handed out. *)
Lemma no_items_of_next_order db :
  consistent db -> itens_of (orders_seq db) db = [].
Proof.
  intros [_ _ Hok Hex _]. unfold itens_of.
  rewrite Forall_forall in Hok, Hex.
  induction (order_itens db) as [|it l IH]; simpl; [reflexivity|].
  destruct (OrderItens.order it =? orders_seq db) eqn:E.
  - exfalso. apply Z.eqb_eq in E.
    destruct (find_order (OrderItens.order it) db) as [o|] eqn:Ho.
    + apply find_order_some in Ho as [Hid Hin].
      specialize (Hok o Hin). lia.
    + now apply (Hex it (or_introl eq_refl)).
  - apply IH. intros x Hx. apply Hex. now right.
Qed.

Lemma consistent_order_added user db :
  consistent db ->
  consistent (with_orders db (orders db ++ [order_row user db])
                          (orders_seq db + 1)).
Proof.
  intros Hc. pose proof (no_items_of_next_order db Hc) as Hnone.
  destruct Hc as [H1 H2 H3 H4 H5]. split; cbn [order_itens order_itens_seq
    orders orders_seq with_orders]; auto.
  - apply Forall_app. split.
    + eapply Forall_impl; [|exact H3]. simpl. intros; lia.
    + constructor; [simpl; lia|constructor].
  - eapply Forall_impl; [|exact H4]. simpl. intros it Hit.
    destruct (find_order (OrderItens.order it) db) as [o|] eqn:Ho;
      [|contradiction].
    now rewrite (find_order_appended _ _ _ _ _ Ho).
  - apply Forall_app. split; [exact H5|].
    constructor; [|constructor].
    unfold order_total. change (itens_of (Order.id (order_row user db)) _)
      with (itens_of (orders_seq db) db).
    rewrite Hnone. simpl. now rewrite py_sum_nil.
Qed.

Lemma consistent_written o' db :
  consistent db ->
  Order.price o' = order_total (Order.id o') db ->
  consistent (written o' db).
Proof.
  intros [H1 H2 H3 H4 H5] Hp. split; cbn [order_itens order_itens_seq
    orders orders_seq with_orders written]; auto.
  - rewrite Forall_forall in *. intros x Hx.
    apply in_map_iff in Hx as (y & <- & Hy).
    destruct (Order.id y =? Order.id o') eqn:E; [|auto].
    apply Z.eqb_eq in E. rewrite <- E. auto.
  - eapply Forall_impl; [|exact H4]. simpl. intros it Hit.
    rewrite find_order_written.
    now destruct (find_order (OrderItens.order it) db).
  - rewrite Forall_forall in *. intros x Hx.
    apply in_map_iff in Hx as (y & <- & Hy).
    destruct (Order.id y =? Order.id o'); auto.
Qed.

Lemma consistent_item_added order_id s o db :
  consistent db ->
  find_order order_id db = Some o ->
  consistent (written (repriced o (item_added (item_row order_id s db) db))
                      (item_added (item_row order_id s db) db)).
Proof.
  intros Hc Ho. apply find_order_some in Ho as Hoid. destruct Hoid as [Hid _].
  destruct Hc as [H1 H2 H3 H4 H5].
  assert (Hadded : forall x, In x (orders db) -> Order.id x <> order_id ->
            order_total (Order.id x) (item_added (item_row order_id s db) db)
            = order_total (Order.id x) db).
  { intros x _ Hx. unfold order_total. rewrite itens_of_item_added.
    cbn [OrderItens.order item_row].
    destruct (order_id =? Order.id x) eqn:E.
    - apply Z.eqb_eq in E. congruence.
    - now rewrite app_nil_r. }
  split; cbn [order_itens order_itens_seq orders orders_seq with_orders
    with_order_itens written item_added].
  - rewrite map_app. simpl. apply NoDup_app.
    + apply NoDup_app_remove_r with (l' := []). now rewrite app_nil_r.
    + constructor; [intros []|constructor].
    + intros k Hk [<-|[]]. rewrite Forall_forall in H2.
      apply in_map_iff in Hk as (it & Hit & Hin).
      specialize (H2 it Hin). lia.
  - apply Forall_app. split.
    + eapply Forall_impl; [|exact H2]. simpl. intros; lia.
    + constructor; [simpl; lia|constructor].
  - rewrite Forall_forall in *. intros x Hx.
    apply in_map_iff in Hx as (y & <- & Hy).
    destruct (Order.id y =? _) eqn:E; [|auto].
    apply Z.eqb_eq in E. cbn [repriced Order.set_price Order.id] in *.
    rewrite <- E. auto.
  - assert (Hkeep : forall k, find_order k db <> None ->
              find_order k (written
                (repriced o (item_added (item_row order_id s db) db))
                (item_added (item_row order_id s db) db)) <> None).
    { intros k Hk. rewrite find_order_written.
      rewrite find_order_item_added.
      now destruct (find_order k db). }
    apply Forall_app. split.
    + eapply Forall_impl; [|exact H4]. simpl. intros it. apply Hkeep.
    + constructor; [|constructor]. apply Hkeep.
      cbn [OrderItens.order item_row]. now rewrite Ho.
  - rewrite Forall_forall in *. intros x Hx.
    apply in_map_iff in Hx as (y & <- & Hy).
    destruct (Order.id y =? _) eqn:E.
    + reflexivity.
    + apply Z.eqb_neq in E. cbn [repriced Order.set_price Order.id] in E.
      rewrite order_total_written, Hadded; auto. congruence.
Qed.

Lemma consistent_item_deleted order_item_id it o db :
  consistent db ->
  find_item order_item_id db = Some it ->
  find_order (OrderItens.order it) db = Some o ->
  consistent (written (repriced o (item_deleted (OrderItens.id it) db))
                      (item_deleted (OrderItens.id it) db)).
Proof.
  intros Hc Hit Ho. apply find_order_some in Ho as Hoid.
  destruct Hoid as [Hid _]. apply find_item_some in Hit as [_ Hin].
  destruct Hc as [H1 H2 H3 H4 H5].
  split; cbn [order_itens order_itens_seq orders orders_seq with_orders
    with_order_itens written item_deleted].
  - now apply NoDup_map_filter.
  - apply Forall_forall. intros x Hx. apply filter_In in Hx as [Hx _].
    rewrite Forall_forall in H2. auto.
  - rewrite Forall_forall in *. intros x Hx.
    apply in_map_iff in Hx as (y & <- & Hy).
    destruct (Order.id y =? _) eqn:E; [|auto].
    apply Z.eqb_eq in E. cbn [repriced Order.set_price Order.id] in *.
    rewrite <- E. auto.
  - apply Forall_forall. intros x Hx. apply filter_In in Hx as [Hx _].
    rewrite Forall_forall in H4. specialize (H4 x Hx).
    rewrite find_order_written.
    rewrite find_order_item_deleted.
    now destruct (find_order (OrderItens.order x) db).
  - rewrite Forall_forall in *. intros x Hx.
    apply in_map_iff in Hx as (y & <- & Hy).
    destruct (Order.id y =? _) eqn:E.
    + reflexivity.
    + apply Z.eqb_neq in E. cbn [repriced Order.set_price Order.id] in E.
      rewrite order_total_written. unfold order_total.
      rewrite itens_of_item_deleted_other; auto. congruence.
Qed.

Lemma consistent_status_written order_id o status db :
  consistent db ->
  find_order order_id db = Some o ->
  consistent (written (Order.set_status o status) db).
Proof.
  intros Hc Ho. apply consistent_written; [exact Hc|].
  apply find_order_some in Ho as [_ Hin].
  destruct Hc as [_ _ _ _ H5]. rewrite Forall_forall in H5.
  exact (H5 o Hin).
Qed.

Lemma effect_consistent db r db' :
  consistent db -> effect db r db' -> consistent db'.
Proof.
  intros Hc He. destruct He.
  - exact Hc.
  - now apply consistent_with_users.
  - now apply consistent_order_added.
  - now apply consistent_item_added.
  - now apply consistent_item_deleted with (order_item_id := order_item_id).
  - now apply consistent_status_written with (order_id := order_id).
  - now apply consistent_status_written with (order_id := order_id).
Qed.

(** Every store the application can reach from the empty one is
    consistent; in particular every price is the total of the items. *)
Lemma reachable_consistent db : reachable db -> consistent db.
Proof.
  induction 1 as [|db ctx r _ IH].
  - apply empty_store_consistent.
  - exact (effect_consistent _ _ _ IH (serve_effect db ctx r)).
Qed.

End Invariant.

(* ===================================================================== *)
(** ** The order aggregate: items, price and status *)

Section Aggregate.
Context {F : PyFloat} {cfg : Settings}.

Lemma find_order_key order_id o db :
  find_order order_id db = Some o -> find_order (Order.id o) db = Some o.
Proof.
  intros Ho. apply find_order_some in Ho as Hid. destruct Hid as [-> _].
  exact Ho.
Qed.

(** Writing back a row leaves every column the write did not change, for
    every order. *)
Lemma observe_written {T} (g : Order.t -> T) order_id o o' db :
  find_order (Order.id o) db = Some o ->
  Order.id o' = Order.id o ->
  g o' = g o ->
  option_map g (find_order order_id (written o' db))
  = option_map g (find_order order_id db).
Proof.
  intros Ho Hid Hg. rewrite find_order_written.
  destruct (find_order order_id db) as [x|] eqn:Hx; [|reflexivity].
  simpl. destruct (Order.id x =? Order.id o') eqn:E; [|reflexivity].
  apply Z.eqb_eq in E. apply find_order_key in Hx.
  rewrite E, Hid, Ho in Hx. injection Hx as <-. now rewrite Hg.
Qed.



(** An accepted [add_iten_order]: the row is appended to the table and to
    the order's items, and the order's price is the total of its items in
    the store the handler leaves. *)
Lemma add_iten_order_accepted order_id s p o db :
  find_order order_id db = Some o ->
  admin_or_owner p o ->
  exists db',
    add_iten_order order_id s p db
      = Ok ((order_itens_seq db, order_total order_id db'), db')
    /\ order_itens db' = order_itens db ++ [item_row order_id s db]
    /\ itens_of order_id db' = itens_of order_id db ++ [item_row order_id s db]
    /\ price_of order_id db' = Some (order_total order_id db').
Proof.
  intros Ho Hp. apply admin_or_owner_iff in Hp.
  apply find_order_some in Ho as Hid. destruct Hid as [Hid _].
  rewrite (add_iten_order_run _ s p _ _ Ho), Hp. cbv zeta.
  exists (written (repriced o (item_added (item_row order_id s db) db))
                  (item_added (item_row order_id s db) db)).
  split; [|split; [|split]].
  - rewrite Hid. reflexivity.
  - reflexivity.
  - change (itens_of order_id (written _ ?d)) with (itens_of order_id d).
    rewrite itens_of_item_added. cbn [OrderItens.order item_row].
    now rewrite Z.eqb_refl.
  - unfold price_of.
    rewrite (find_order_written_same order_id o); [|exact Ho|reflexivity].
    simpl. now rewrite order_total_written, Hid.
Qed.



(** No request other than a cancel or a complete of an order touches the
    order's status. *)
Lemma effect_status_frame db r db' order_id st :
  effect db r db' ->
  ~ sets_status_of order_id r ->
  status_in order_id db = Some st ->
  status_in order_id db' = Some st.
Proof.
  intros He Hr Hst. destruct He as
    [ | | |target s o Ho|order_item_id it o Hit Ho|target o Ho|target o Ho];
    try exact Hst.
  - unfold status_in in *.
    destruct (find_order order_id db) as [y|] eqn:Hy; [|discriminate].
    now rewrite (find_order_appended _ _ _ _ _ Hy).
  - unfold status_in.
    rewrite (observe_written Order.status _ o); auto.
    now apply find_order_key in Ho.
  - unfold status_in.
    rewrite (observe_written Order.status _ o); auto.
    now apply find_order_key in Ho.
  - simpl in Hr. apply find_order_some in Ho as [Hid _].
    unfold status_in. rewrite find_order_written_other; [exact Hst|].
    cbn [Order.id Order.set_status]. congruence.
  - simpl in Hr. apply find_order_some in Ho as [Hid _].
    unfold status_in. rewrite find_order_written_other; [exact Hst|].
    cbn [Order.id Order.set_status]. congruence.
Qed.

(** The two item handlers return only on a row they found and for a
    principal entitled to it. *)
Lemma add_iten_order_inv order_id s p a db db' :
  add_iten_order order_id s p db = Ok (a, db') ->
  exists o, find_order order_id db = Some o /\ admin_or_owner p o.
Proof.
  intros Hrun. destruct (find_order order_id db) as [o|] eqn:Ho.
  - exists o. split; [reflexivity|]. apply admin_or_owner_iff.
    rewrite (add_iten_order_run _ s p _ _ Ho) in Hrun.
    now destruct (User.admin p || _).
  - unfold add_iten_order, bind, query_first in Hrun.
    unfold find_order in Ho. rewrite Ho in Hrun. discriminate.
Qed.

Lemma remove_iten_order_inv order_item_id p a db db' :
  remove_iten_order order_item_id p db = Ok (a, db') ->
  exists it o,
    find_item order_item_id db = Some it
    /\ find_order (OrderItens.order it) db = Some o
    /\ admin_or_owner p o.
Proof.
  intros Hrun. destruct (find_item order_item_id db) as [it|] eqn:Hit.
  - destruct (find_order (OrderItens.order it) db) as [o|] eqn:Ho.
    + exists it, o. repeat split; auto. apply admin_or_owner_iff.
      rewrite (remove_iten_order_run _ p _ _ _ Hit Ho) in Hrun.
      now destruct (User.admin p || _).
    + unfold remove_iten_order, bind, query_first in Hrun.
      unfold find_item in Hit. rewrite Hit in Hrun.
      unfold find_order in Ho. rewrite Ho in Hrun. discriminate.
  - unfold remove_iten_order, bind, query_first in Hrun.
    unfold find_item in Hit. rewrite Hit in Hrun. discriminate.
Qed.


End Aggregate.

Section AggregateClaims.
Context {F : PyFloat} {cfg : Settings}.


Lemma order_run order_schema p db :
  order order_schema p db =
    if User.admin p || (User.id p =? OrderSchema.user_id order_schema)
    then Ok (orders_seq db,
             with_orders db
               (orders db ++ [order_row (OrderSchema.user_id order_schema) db])
               (orders_seq db + 1))
    else Raise not_authorized.
Proof.
  unfold order. rewrite gate_bool.
  now destruct (User.admin p || _).
Qed.

(** C5 (as the code has it): an order is created with status pending;
    [cancel_order] sets the status to canceled and [complete_order] sets it
    to completed whatever the status was, so neither canceled nor completed
    is final; serving any other request leaves the status of every order. *)
Theorem status_is_set_unconditionally (db : Store) :
  (forall order_schema p,
      User.admin p = true \/ User.id p = OrderSchema.user_id order_schema ->
      exists row,
        order order_schema p db
          = Ok (Order.id row,
                with_orders db (orders db ++ [row]) (orders_seq db + 1))
        /\ Order.status row = "pending")
  /\ (forall order_id p o,
      find_order order_id db = Some o ->
      admin_or_owner p o ->
      exists db',
        cancel_order order_id p db = Ok (Order.set_status o "canceled", db')
        /\ status_in order_id db' = Some "canceled")
  /\ (forall order_id p o,
      find_order order_id db = Some o ->
      admin_or_owner p o ->
      exists db',
        complete_order order_id p db = Ok (Order.set_status o "completed", db')
        /\ status_in order_id db' = Some "completed")
  /\ (forall ctx r order_id st,
      ~ sets_status_of order_id r ->
      status_in order_id db = Some st ->
      status_in order_id (serve db ctx r) = Some st).
Proof.
  split; [|split; [|split]].
  - intros order_schema p Hp.
    exists (order_row (OrderSchema.user_id order_schema) db).
    split; [|reflexivity]. rewrite order_run.
    replace (User.admin p || _) with true; [reflexivity|].
    symmetry. rewrite orb_true_iff, Z.eqb_eq. exact Hp.
  - intros order_id p o Ho Hp. apply admin_or_owner_iff in Hp.
    rewrite (cancel_order_run _ p _ _ Ho), Hp. eexists. split; [reflexivity|].
    unfold status_in.
    now rewrite (find_order_written_same order_id o).
  - intros order_id p o Ho Hp. apply admin_or_owner_iff in Hp.
    rewrite (complete_order_run _ p _ _ Ho), Hp. eexists.
    split; [reflexivity|].
    unfold status_in.
    now rewrite (find_order_written_same order_id o).
  - intros ctx r order_id st Hr Hst.
    exact (effect_status_frame _ _ _ _ _ (serve_effect db ctx r) Hr Hst).
Qed.



End AggregateClaims.

(* ===================================================================== *)
(** ** Tokens and the authentication gate *)

Section Authentication.
Context {F : PyFloat} {cfg : Settings}.

(** [int(str(n))] is [n]. *)
Lemma py_int_py_str (n : Z) : py_int (py_str n) = Some n.
Proof.
  unfold py_int, py_str. rewrite NilZero.isi.
  - simpl. now rewrite DecimalZ.of_to.
  - destruct n; simpl; try discriminate.
    intros [= H]. now apply DecimalPos.Unsigned.to_uint_nonnil in H.
  - destruct n; simpl; try discriminate.
    intros [= H]. now apply DecimalPos.Unsigned.to_uint_nonnil in H.
Qed.

Lemma decode_signed payload now :
  unexpired (jose.exp payload) now ->
  jose.decode (jose.JWS SECRET_KEY ALGORITHM payload) SECRET_KEY ALGORITHM now
  = Some payload.
Proof.
  intros Hexp. unfold jose.decode. rewrite !String.eqb_refl. simpl.
  destruct (jose.exp payload) as [e|]; [|reflexivity].
  simpl in Hexp. destruct (e <? now) eqn:E; [|reflexivity].
  apply Z.ltb_lt in E. lia.
Qed.

(** The tokens [jwt.decode] refuses. *)
Lemma decode_refuses t key algorithm now :
  jose.decode t key algorithm now = None <->
  match t with
  | jose.Malformed _ => True
  | jose.JWS k a payload =>
      k <> key \/ a <> algorithm
      \/ exists e, jose.exp payload = Some e /\ e < now
  end.
Proof.
  destruct t as [raw|k a payload]; simpl; [tauto|].
  destruct (String.eqb_spec k key) as [->|Hk];
    destruct (String.eqb_spec a algorithm) as [->|Ha]; simpl;
    try (split; [auto|reflexivity]).
  destruct (jose.exp payload) as [e|].
  - destruct (e <? now) eqn:E.
    + apply Z.ltb_lt in E. split; [eauto 6|reflexivity].
    + apply Z.ltb_ge in E. split; [discriminate|].
      intros [H|[H|(e' & [= <-] & H)]]; try contradiction. lia.
  - split; [discriminate|].
    intros [H|[H|(e' & [=] & _)]]; contradiction.
Qed.

(** [verify_token] accepts every token signed with the configured key and
    algorithm whose expiry has not passed and whose subject is the key of
    a stored user; the payload has no field that tells an access token
    from a refresh token. *)
Lemma verify_token_accepts s exp user_id user now db :
  py_int s = Some user_id ->
  find_user user_id db = Some user ->
  unexpired exp now ->
  verify_token
    (Some (jose.JWS SECRET_KEY ALGORITHM {| jose.sub := Some s; jose.exp := exp |}))
    now db = Ok (user, db).
Proof.
  intros Hs Hu Hexp. unfold verify_token, oath2_schema, bind, ret.
  rewrite decode_signed by exact Hexp. cbn [jose.sub].
  rewrite Hs. unfold query_first. unfold find_user in Hu. now rewrite Hu.
Qed.

(** A signed token without a subject, or with one that is no numeral,
    leaves [verify_token] through an exception its [except] does not name. *)
Lemma verify_token_uncaught payload now db :
  unexpired (jose.exp payload) now ->
  (jose.sub payload = None ->
     verify_token (Some (jose.JWS SECRET_KEY ALGORITHM payload)) now db
     = Raise TypeError)
  /\ (forall s, jose.sub payload = Some s -> py_int s = None ->
     verify_token (Some (jose.JWS SECRET_KEY ALGORITHM payload)) now db
     = Raise ValueError).
Proof.
  intros Hexp. unfold verify_token, oath2_schema, bind, ret.
  rewrite decode_signed by exact Hexp. split.
  - now intros ->.
  - intros s -> Hs. now rewrite Hs.
Qed.

Lemma get_token_accepted user_id token_time issued user now db :
  find_user user_id db = Some user ->
  now <= issued + token_time ->
  verify_token (Some (get_token user_id token_time issued)) now db
  = Ok (user, db).
Proof.
  intros Hu Hnow. unfold get_token, jose.encode.
  apply verify_token_accepts with (user_id := user_id); auto.
  apply py_int_py_str.
Qed.

Lemma Depends_verify_token_accepted {A} ctx (body : User.t -> Session A)
    user db :
  verify_token (authorization ctx) (now ctx) db = Ok (user, db) ->
  Depends_verify_token ctx body db = body user db.
Proof. intros H. unfold Depends_verify_token, bind. now rewrite H. Qed.

Lemma Depends_verify_token_rejected {A} ctx (body : User.t -> Session A)
    e db :
  verify_token (authorization ctx) (now ctx) db = Raise e ->
  Depends_verify_token ctx body db = Raise e.
Proof. intros H. unfold Depends_verify_token, bind. now rewrite H. Qed.

(** C6 (as the code has it): every order route, and [/auth/signup] and
    [/auth/refresh] as well, runs behind [verify_token]: when the gate
    raises, the request fails with what the gate raised and its body does
    not run.  The gate answers 401 to an absent token, to a token
    [jwt.decode] refuses (malformed, other key or algorithm, expired) and to
    a token whose subject is the key of no stored user.  The remaining auth
    routes answer the same with and without a token. *)
Theorem authentication_gate (ctx : Context_) (db : Store) :
  (authorization ctx = None ->
     fails_with 401 (verify_token (authorization ctx) (now ctx)) db)
  /\ (forall t,
        authorization ctx = Some t ->
        match t with
        | jose.Malformed _ => True
        | jose.JWS k a payload =>
            k <> SECRET_KEY \/ a <> ALGORITHM
            \/ exists e, jose.exp payload = Some e /\ e < now ctx
        end ->
        fails_with 401 (verify_token (authorization ctx) (now ctx)) db)
  /\ (forall payload s user_id,
        authorization ctx = Some (jose.JWS SECRET_KEY ALGORITHM payload) ->
        unexpired (jose.exp payload) (now ctx) ->
        jose.sub payload = Some s ->
        py_int s = Some user_id ->
        find_user user_id db = None ->
        fails_with 401 (verify_token (authorization ctx) (now ctx)) db)
  /\ (forall e (r : order_request),
        verify_token (authorization ctx) (now ctx) db = Raise e ->
        app ctx (Orders r) db = Raise e)
  /\ (forall e (r : auth_request),
        open_route r = false ->
        verify_token (authorization ctx) (now ctx) db = Raise e ->
        app ctx (Auth r) db = Raise e)
  /\ (forall (r : auth_request) token,
        open_route r = true ->
        app ctx (Auth r) db
        = app {| authorization := token; now := now ctx; salt := salt ctx |}
              (Auth r) db).
Proof.
  split; [|split; [|split; [|split; [|split]]]].
  - intros ->. eexists. reflexivity.
  - intros t -> Ht. apply decode_refuses in Ht.
    unfold fails_with, verify_token, oath2_schema, bind, ret.
    rewrite Ht. eexists. reflexivity.
  - intros payload s user_id -> Hexp Hs Hint Hu.
    unfold fails_with, verify_token, oath2_schema, bind, ret.
    rewrite decode_signed by exact Hexp. rewrite Hs, Hint.
    unfold query_first. unfold find_user in Hu. rewrite Hu.
    eexists. reflexivity.
  - intros e r Hv. unfold app, order_router.
    now apply Depends_verify_token_rejected.
  - intros e r Hr Hv. unfold app.
    destruct r; try discriminate; cbn [auth_router];
      now apply Depends_verify_token_rejected.
  - intros r token Hr. unfold app.
    destruct r; try discriminate; reflexivity.
Qed.

(** C10: [verify_token] does not tell token kinds apart.  After a login at
    second [issued], the refresh token authenticates every order route
    until [issued] + 7 days, and the access token is accepted by
    [/auth/refresh] until it expires, in every store that still holds the
    user; and any token signed with the configured key and algorithm,
    unexpired and naming a stored user, is accepted. *)
Theorem token_kinds_are_interchangeable (login_schema : LoginSchema.t)
    (issued : Z) (tokens : Tokens) (db db' : Store) :
  login login_schema issued db = Ok (tokens, db') ->
  exists user refresh,
    In user (users db)
    /\ refresh_token tokens = Some refresh
    /\ refresh = get_token (User.id user) refresh_token_time issued
    /\ access_token tokens = get_token (User.id user) access_token_time issued
    /\ (forall later holder now salt (r : order_request),
          find_user (User.id user) later = Some holder ->
          now <= issued + 7 * 86400 ->
          app {| authorization := Some refresh; now := now; salt := salt |}
              (Orders r) later
          = order_route r holder later)
    /\ (forall later holder now salt,
          find_user (User.id user) later = Some holder ->
          now <= issued + 60 * ACCESS_TOKEN_EXPIRE_MINUTES ->
          app {| authorization := Some (access_token tokens);
                 now := now; salt := salt |}
              (Auth GET_auth_refresh) later
          = Ok (Issued {| access_token :=
                            get_token (User.id holder) access_token_time now;
                          refresh_token := None;
                          token_type := "Bearer" |}, later))
    /\ (forall s exp user_id holder now later,
          py_int s = Some user_id ->
          find_user user_id later = Some holder ->
          unexpired exp now ->
          verify_token
            (Some (jose.JWS SECRET_KEY ALGORITHM
                     {| jose.sub := Some s; jose.exp := exp |}))
            now later = Ok (holder, later)).
Proof.
  unfold login, bind.
  destruct (authenticate_user _ _ db) as [[[user|] db1]|e] eqn:Hauth;
    try discriminate.
  unfold ret. intros [= <- <-].
  assert (Hin : In user (users db)).
  { unfold authenticate_user, bind, query_first, ret in Hauth.
    destruct (find _ (users db)) as [u|] eqn:Hu; [|discriminate].
    destruct (negb _); [discriminate|]. injection Hauth as <- _.
    now apply find_some in Hu. }
  exists user, (get_token (User.id user) refresh_token_time issued).
  cbn [refresh_token access_token].
  split; [exact Hin|]. split; [reflexivity|]. split; [reflexivity|].
  split; [reflexivity|]. split; [|split].
  - intros later holder now salt r Hholder Hnow.
    unfold app, order_router. apply Depends_verify_token_accepted.
    cbn [authorization main.now]. now apply get_token_accepted.
  - intros later holder now salt Hholder Hnow.
    unfold app. cbn [auth_router].
    rewrite (Depends_verify_token_accepted _ _ holder).
    + reflexivity.
    + cbn [authorization main.now]. now apply get_token_accepted.
  - intros s exp user_id holder now later. apply verify_token_accepts.
Qed.

End Authentication.

(* ===================================================================== *)
(** ** Signing up *)

Section Signup.
Context {F : PyFloat} {cfg : Settings}.

Lemma found_admin db :
  found (find (fun u => User.admin u) (users db)) = admin_exists db.
Proof.
  unfold admin_exists. induction (users db) as [|u l IH]; simpl; auto.
  now destruct (User.admin u).
Qed.

Lemma found_none {T} (row : option T) : found row = false <-> row = None.
Proof. destruct row; simpl; split; congruence. Qed.

Lemma admin_principal_iff current_user :
  admin_principal current_user <->
  match current_user with
  | None => true
  | Some current_user => negb (User.admin current_user)
  end = false.
Proof.
  unfold admin_principal. destruct current_user as [u|].
  - rewrite negb_false_iff. split; [intros (x & [= <-] & H); exact H|eauto].
  - split; [intros (x & [=] & _)|discriminate].
Qed.

(** [signup] in one piece: the duplicate check, then the admin rule, then
    the insert. *)
Lemma signup_run user_schema current_user salt db :
  signup user_schema current_user salt db =
    if found (find_email (UserSchema.email user_schema) db) then
      Raise (HTTPException 400 "This user already exists with this email.")
    else if admin_exists db && truthy (UserSchema.admin user_schema)
            && match current_user with
               | None => true
               | Some current_user => negb (User.admin current_user)
               end then
      Raise (HTTPException 403 "Only admins can create new admin users.")
    else
      let row := user_row user_schema
                   (passlib.hash salt (UserSchema.password user_schema)) db in
      Ok (registered (UserSchema.email user_schema),
          with_users db (users db ++ [row]) (users_seq db + 1)).
Proof.
  unfold signup, bind, query_first, raise_if, raise, ret, find_email.
  destruct (found (find _ (users db))); [reflexivity|].
  rewrite found_admin.
  destruct (admin_exists db); simpl; [|reflexivity].
  destruct (truthy _); simpl; [|reflexivity].
  now destruct (match current_user with None => true | Some _ => _ end).
Qed.

Lemma signup_admin_run user_schema salt db :
  signup_admin user_schema salt db =
    if found (find_email (UserSchema.email user_schema) db) then
      Raise (HTTPException 400 "This user already exists with this email.")
    else
      let row := user_row user_schema
                   (passlib.hash salt
                      (substring 0 72 (UserSchema.password user_schema))) db in
      Ok (registered (UserSchema.email user_schema),
          with_users db (users db ++ [row]) (users_seq db + 1)).
Proof.
  unfold signup_admin, bind, query_first, raise, ret, find_email.
  now destruct (found (find _ (users db))).
Qed.

(** C1 (as the code has it): a signup whose e-mail is already registered
    fails with 400 before the admin rule is looked at.  Otherwise, with
    admin requested: if no admin exists the signup succeeds; if one exists
    it succeeds exactly when the principal is present and is itself admin,
    and fails with 403 if not.  A signup that does not request admin, or
    one made while no admin exists, never fails with 403. *)
Theorem admin_bootstrap_rule (user_schema : UserSchema.t)
    (current_user : option User.t) (salt : string) (db : Store) :
  (find_email (UserSchema.email user_schema) db <> None ->
     signup user_schema current_user salt db
     = Raise (HTTPException 400 "This user already exists with this email."))
  /\ (find_email (UserSchema.email user_schema) db = None ->
      truthy (UserSchema.admin user_schema) = true ->
      (admin_exists db = false ->
         succeeds (signup user_schema current_user salt) db)
      /\ (admin_exists db = true ->
          (succeeds (signup user_schema current_user salt) db
           <-> admin_principal current_user)
          /\ (~ admin_principal current_user ->
              fails_with 403 (signup user_schema current_user salt) db)))
  /\ (find_email (UserSchema.email user_schema) db = None ->
      truthy (UserSchema.admin user_schema) = false ->
      succeeds (signup user_schema current_user salt) db)
  /\ (truthy (UserSchema.admin user_schema) = false
      \/ admin_exists db = false ->
      ~ fails_with 403 (signup user_schema current_user salt) db).
Proof.
  unfold succeeds, fails_with. rewrite signup_run, admin_principal_iff.
  split; [|split; [|split]].
  - intros Hdup. destruct (find_email _ db); [reflexivity|contradiction].
  - intros -> ->. simpl. split.
    + intros ->. simpl. eauto.
    + intros ->. simpl.
      destruct (match current_user with None => true | Some _ => _ end).
      * split; [split; [intros (a & d & H); discriminate|discriminate]|].
        intros _. eauto.
      * split; [split; [reflexivity|eauto]|]. intros H. now elim H.
  - intros -> ->. simpl. rewrite andb_false_r. simpl. eauto.
  - intros Hno (detail & Hrun).
    destruct (found _); [discriminate|].
    destruct Hno as [Hno|Hno]; rewrite Hno in Hrun; simpl in Hrun;
      rewrite ?andb_false_r in Hrun; discriminate.
Qed.

Lemma find_app_last {T} (p : T -> bool) (l : list T) (x : T) :
  find p (l ++ [x]) =
  match find p l with
  | Some y => Some y
  | None => if p x then Some x else None
  end.
Proof.
  induction l as [|y l IH]; simpl; [reflexivity|]. now destruct (p y).
Qed.



End Signup.

(* ===================================================================== *)
(** ** Tokens: what is accepted, and for how long *)

Section TokenLifetime.
Context {F : PyFloat} {cfg : Settings}.


Lemma verify_token_finds authorization now user db db' :
  verify_token authorization now db = Ok (user, db') ->
  db' = db /\ find_user (User.id user) db = Some user.
Proof.
  unfold verify_token, oath2_schema, bind, ret, raise, query_first.
  destruct authorization as [t|]; [|discriminate].
  destruct (jose.decode t _ _ _) as [d|]; [|discriminate].
  destruct (jose.sub d) as [s|]; [|discriminate].
  destruct (py_int s) as [user_id|]; [|discriminate].
  destruct (find _ (users db)) as [u|] eqn:Hu; [|discriminate].
  intros [= <- <-]. split; [reflexivity|].
  apply find_some in Hu as Hkey. destruct Hkey as [_ Hkey].
  apply Z.eqb_eq in Hkey. unfold find_user. now rewrite Hkey.
Qed.


(** X2: A token [get_token] issued at second [issued] for [token_time]
    seconds is accepted up to and including second [issued + token_time]
    for a stored user, and answered 401 from the next second on, stored
    user or not. *)
Theorem issued_token_lifetime user_id token_time issued now db :
  (forall user,
      find_user user_id db = Some user ->
      now <= issued + token_time ->
      verify_token (Some (get_token user_id token_time issued)) now db
      = Ok (user, db))
  /\ (find_user user_id db = None ->
      now <= issued + token_time ->
      verify_token (Some (get_token user_id token_time issued)) now db
      = Raise (HTTPException 401 "Invalid access"))
  /\ (issued + token_time < now ->
      verify_token (Some (get_token user_id token_time issued)) now db
      = Raise (HTTPException 401 "Access denied, check token validity")).
Proof.
  split; [|split].
  - intros user Hu Hnow. now apply get_token_accepted.
  - intros Hu Hnow.
    unfold verify_token, oath2_schema, bind, ret, get_token, jose.encode.
    rewrite decode_signed by exact Hnow. cbn [jose.sub].
    rewrite py_int_py_str. unfold query_first.
    unfold find_user in Hu. now rewrite Hu.
  - intros Hlate.
    unfold verify_token, oath2_schema, bind, ret, get_token, jose.encode.
    unfold jose.decode. rewrite !String.eqb_refl. cbn [andb jose.exp].
    apply Z.ltb_lt in Hlate. now rewrite Hlate.
Qed.

Lemma refresh_run ctx user db :
  verify_token (authorization ctx) (now ctx) db = Ok (user, db) ->
  app ctx (Auth GET_auth_refresh) db
  = Ok (Issued {| access_token :=
                    get_token (User.id user) access_token_time (now ctx);
                  refresh_token := None;
                  token_type := "Bearer" |}, db).
Proof.
  intros Hv. unfold app. cbn [auth_router].
  now rewrite (Depends_verify_token_accepted _ _ user).
Qed.

(** X3: The token [/auth/refresh] answers with is itself accepted by
    [/auth/refresh] until it expires, for the same user: a session is
    renewed from token to token without the password being asked again.
    The route issues no refresh token and leaves the store as it was. *)
Theorem refreshed_token_refreshes_again ctx tokens db db' :
  app ctx (Auth GET_auth_refresh) db = Ok (Issued tokens, db') ->
  exists user,
    verify_token (authorization ctx) (now ctx) db = Ok (user, db)
    /\ db' = db
    /\ access_token tokens
       = get_token (User.id user) access_token_time (now ctx)
    /\ refresh_token tokens = None
    /\ forall now' salt',
        now' <= now ctx + 60 * ACCESS_TOKEN_EXPIRE_MINUTES ->
        app (with_token (access_token tokens) now' salt')
            (Auth GET_auth_refresh) db
        = Ok (Issued {| access_token :=
                          get_token (User.id user) access_token_time now';
                        refresh_token := None;
                        token_type := "Bearer" |}, db).
Proof.
  intros Hrun.
  destruct (Depends_verify_token_run ctx
              (fun user => fmap Issued (user_refresh_token user (now ctx))) db)
    as [(e & _ & He)|(user & Hv & Hbody)].
  - unfold app in Hrun. cbn [auth_router] in Hrun. congruence.
  - rewrite (refresh_run ctx user db Hv) in Hrun. injection Hrun as <- <-.
    exists user. cbn [access_token refresh_token].
    split; [exact Hv|]. split; [reflexivity|]. split; [reflexivity|].
    split; [reflexivity|]. intros now' salt' Hnow.
    apply verify_token_finds in Hv as [_ Hu].
    apply (refresh_run (with_token _ now' salt') user db).
    cbn [authorization main.now with_token].
    now apply get_token_accepted.
Qed.

End TokenLifetime.

(* ===================================================================== *)
(** ** Logging in *)

Section Login.
Context {F : PyFloat} {cfg : Settings}.

Lemma authenticate_user_run email password db :
  authenticate_user email password db =
    Ok (match find_email email db with
        | Some user =>
            if passlib.verify password (User.password user)
            then Some user else None
        | None => None
        end, db).
Proof.
  unfold authenticate_user, bind, query_first, ret, find_email.
  destruct (find _ (users db)) as [u|]; [|reflexivity].
  now destruct (passlib.verify _ _).
Qed.

Lemma login_run login_schema now db :
  login login_schema now db =
    match find_email (LoginSchema.email login_schema) db with
    | Some user =>
        if passlib.verify (LoginSchema.password login_schema)
                          (User.password user)
        then Ok ({| access_token :=
                      get_token (User.id user) access_token_time now;
                    refresh_token :=
                      Some (get_token (User.id user) refresh_token_time now);
                    token_type := "Bearer" |}, db)
        else Raise bad_credentials
    | None => Raise bad_credentials
    end.
Proof.
  unfold login, bind. rewrite authenticate_user_run.
  destruct (find_email _ db) as [u|]; [|reflexivity].
  now destruct (passlib.verify _ _).
Qed.

Lemma login_form_run username password now db :
  login_form username password now db =
    match find_email username db with
    | Some user =>
        if passlib.verify password (User.password user)
        then Ok ({| access_token :=
                      get_token (User.id user) access_token_time now;
                    refresh_token := None;
                    token_type := "Bearer" |}, db)
        else Raise bad_credentials
    | None => Raise bad_credentials
    end.
Proof.
  unfold login_form, bind. rewrite authenticate_user_run.
  destruct (find_email _ db) as [u|]; [|reflexivity].
  now destruct (passlib.verify _ _).
Qed.

(** X4: [login] and [login_form] succeed exactly when the first user
    registered under the e-mail has that password; they fail with one and
    the same 400, whether the e-mail is unknown or the password wrong;
    they never write to the store; and on the same credentials they issue
    the same access token, [login_form] without a refresh token. *)
Theorem login_outcome (login_schema : LoginSchema.t) (now : Z) (db : Store) :
  (succeeds (login login_schema now) db <->
   exists user,
     find_email (LoginSchema.email login_schema) db = Some user
     /\ passlib.verify (LoginSchema.password login_schema)
                       (User.password user) = true)
  /\ (forall e, login login_schema now db = Raise e ->
        e = HTTPException 400 "User not found or invalid password.")
  /\ (forall tokens db', login login_schema now db = Ok (tokens, db') ->
        db' = db
        /\ token_type tokens = "Bearer"
        /\ login_form (LoginSchema.email login_schema)
                      (LoginSchema.password login_schema) now db
           = Ok ({| access_token := access_token tokens;
                    refresh_token := None;
                    token_type := "Bearer" |}, db))
  /\ (forall e, login login_schema now db = Raise e ->
        login_form (LoginSchema.email login_schema)
                   (LoginSchema.password login_schema) now db = Raise e).
Proof.
  unfold succeeds. rewrite login_run, login_form_run.
  destruct (find_email _ db) as [u|];
    [destruct (passlib.verify _ _) eqn:Hpw|].
  - split; [split; eauto|]. split; [discriminate|].
    split; [|discriminate].
    intros tokens db' [= <- <-]. auto.
  - split.
    { split; [intros (a & d & H); discriminate|].
      intros (x & [= <-] & H). congruence. }
    split; [now intros e [= <-]|]. split; [discriminate|auto].
  - split.
    { split; [intros (a & d & H); discriminate|].
      intros (x & H & _). discriminate. }
    split; [now intros e [= <-]|]. split; [discriminate|auto].
Qed.

End Login.

(* ===================================================================== *)
(** ** Signing up and then logging in *)

Section SignupLogin.
Context {F : PyFloat} {cfg : Settings}.


Lemma find_email_registered user_schema digest db seq :
  find_email (UserSchema.email user_schema) db = None ->
  find_email (UserSchema.email user_schema)
    (with_users db (users db ++ [user_row user_schema digest db]) seq)
  = Some (user_row user_schema digest db).
Proof.
  unfold find_email; cbn [users with_users]. intros Hfresh.
  rewrite find_app_last, Hfresh. cbn [User.email user_row].
  now rewrite String.eqb_refl.
Qed.

Lemma verify_hash candidate salt secret :
  passlib.verify candidate (passlib.hash salt secret)
  = String.eqb candidate secret.
Proof. reflexivity. Qed.

Lemma signup_inv user_schema current_user salt m db db' :
  signup user_schema current_user salt db = Ok (m, db') ->
  find_email (UserSchema.email user_schema) db = None
  /\ db' = with_users db
             (users db
              ++ [user_row user_schema
                    (passlib.hash salt (UserSchema.password user_schema)) db])
             (users_seq db + 1).
Proof.
  rewrite signup_run.
  destruct (find_email _ db); simpl; [discriminate|].
  destruct (admin_exists db && _ && _); [discriminate|].
  cbv zeta. now intros [= _ <-].
Qed.

Lemma signup_admin_inv user_schema salt m db db' :
  signup_admin user_schema salt db = Ok (m, db') ->
  find_email (UserSchema.email user_schema) db = None
  /\ db' = with_users db
             (users db
              ++ [user_row user_schema
                    (passlib.hash salt
                       (substring 0 72 (UserSchema.password user_schema))) db])
             (users_seq db + 1).
Proof.
  rewrite signup_admin_run.
  destruct (find_email _ db); simpl; [discriminate|].
  cbv zeta. now intros [= _ <-].
Qed.

(** X5: A user registered through [/auth/signup] logs in with the e-mail and
    password of the signup, for tokens that carry the key the signup
    assigned, and with no other password. *)
Theorem signup_then_login user_schema current_user salt m db db' :
  signup user_schema current_user salt db = Ok (m, db') ->
  forall now,
    login (credentials user_schema) now db'
    = Ok ({| access_token := get_token (users_seq db) access_token_time now;
             refresh_token :=
               Some (get_token (users_seq db) refresh_token_time now);
             token_type := "Bearer" |}, db')
    /\ (forall password,
          password <> UserSchema.password user_schema ->
          login (credentials_with user_schema password) now db'
          = Raise (HTTPException 400 "User not found or invalid password.")).
Proof.
  intros Hrun now. apply signup_inv in Hrun as [Hfresh ->].
  split.
  - rewrite login_run. cbn [LoginSchema.email LoginSchema.password credentials].
    rewrite (find_email_registered _ _ _ _ Hfresh).
    cbn [User.password User.id user_row]. rewrite verify_hash.
    now rewrite String.eqb_refl.
  - intros password Hpw. rewrite login_run.
    cbn [LoginSchema.email LoginSchema.password credentials_with].
    rewrite (find_email_registered _ _ _ _ Hfresh).
    cbn [User.password User.id user_row]. rewrite verify_hash.
    destruct (String.eqb_spec password (UserSchema.password user_schema));
      [contradiction|reflexivity].
Qed.


(** X7: In the empty store no token resolves to a user, so every route behind
    [verify_token] fails, [/auth/signup] among them, and nobody can log
    in: the first user can only come from [/auth/signup_admin], which
    always succeeds there. *)
Theorem empty_store_bootstrap (ctx : Context_) :
  (forall r : order_request, ~ succeeds (app ctx (Orders r)) empty_store)
  /\ (forall r : auth_request,
        open_route r = false -> ~ succeeds (app ctx (Auth r)) empty_store)
  /\ (forall login_schema,
        ~ succeeds (app ctx (Auth (POST_auth_login login_schema))) empty_store)
  /\ (forall username password,
        ~ succeeds (app ctx (Auth (POST_auth_login_form username password)))
            empty_store)
  /\ (forall user_schema,
        app ctx (Auth (POST_auth_signup_admin user_schema)) empty_store
        = Ok (Message (registered (UserSchema.email user_schema)),
              with_users empty_store
                [user_row user_schema
                   (passlib.hash (salt ctx)
                      (substring 0 72 (UserSchema.password user_schema)))
                   empty_store]
                2)).
Proof.
  assert (Hgate : forall A (body : User.t -> Session A),
            ~ succeeds (Depends_verify_token ctx body) empty_store).
  { intros A body (a & d & H).
    destruct (Depends_verify_token_run ctx body empty_store)
      as [(e & _ & He)|(user & Hv & _)]; [congruence|].
    apply verify_token_pure in Hv as [_ []]. }
  split; [|split; [|split; [|split]]].
  - intros r. apply Hgate.
  - intros r Hr. destruct r; try discriminate; apply Hgate.
  - intros login_schema (a & d & H). unfold app in H.
    cbn [auth_router] in H. rewrite fmap_run, login_run in H. discriminate.
  - intros username password (a & d & H). unfold app in H.
    cbn [auth_router] in H. rewrite fmap_run, login_form_run in H.
    discriminate.
  - intros user_schema. unfold app. cbn [auth_router].
    rewrite fmap_run, signup_admin_run. reflexivity.
Qed.

End SignupLogin.

(* ===================================================================== *)
(** ** The users table over time *)

Section Accounts.
Context {F : PyFloat} {cfg : Settings}.

(** The order routes leave the users table alone. *)
Lemma order_route_users r user db :
  match order_route r user db with
  | Ok (_, db') => users db' = users db /\ users_seq db' = users_seq db
  | Raise _ => True
  end.
Proof.
  destruct r; cbn [order_route]; rewrite fmap_run.
  - cbn. auto.
  - rewrite order_run. now destruct (User.admin user || _).
  - unfold list_orders, bind, ret, raise, query_all.
    now destruct (negb _).
  - unfold list_user_orders, bind, ret, raise, query_all.
    now destruct (negb _ && negb _).
  - destruct (find_order order_id db) as [o|] eqn:Ho.
    + rewrite (get_order_run _ user _ _ Ho).
      now destruct (User.admin user || _).
    + unfold get_order. not_found Ho. exact I.
  - destruct (find_order order_id db) as [o|] eqn:Ho.
    + rewrite (add_iten_order_run _ order_item_schema user _ _ Ho).
      now destruct (User.admin user || _).
    + unfold add_iten_order. not_found Ho. exact I.
  - destruct (find_item order_item_id db) as [it|] eqn:Hit.
    + destruct (find_order (OrderItens.order it) db) as [o|] eqn:Ho.
      * rewrite (remove_iten_order_run _ user _ _ _ Hit Ho).
        now destruct (User.admin user || _).
      * unfold remove_iten_order. not_found Hit. not_found Ho. exact I.
    + unfold remove_iten_order. not_found Hit. exact I.
  - destruct (find_order order_id db) as [o|] eqn:Ho.
    + rewrite (cancel_order_run _ user _ _ Ho).
      now destruct (User.admin user || _).
    + unfold cancel_order. not_found Ho. exact I.
  - destruct (find_order order_id db) as [o|] eqn:Ho.
    + rewrite (complete_order_run _ user _ _ Ho).
      now destruct (User.admin user || _).
    + unfold complete_order. not_found Ho. exact I.
Qed.

(** Serving a request leaves the users table, or appends the one row of a
    signup whose e-mail was not registered. *)
Lemma serve_users db ctx r :
  (users (serve db ctx r) = users db
   /\ users_seq (serve db ctx r) = users_seq db)
  \/ exists user_schema digest,
       find_email (UserSchema.email user_schema) db = None
       /\ serve db ctx r
          = with_users db (users db ++ [user_row user_schema digest db])
                       (users_seq db + 1).
Proof.
  unfold serve, app. destruct r as [r|r].
  2:{ left. unfold order_router.
      destruct (Depends_verify_token_run ctx (order_route r) db)
        as [(e & _ & ->)|(user & _ & ->)]; [auto|].
      generalize (order_route_users r user db).
      now destruct (order_route r user db) as [[a db']|e]. }
  destruct r; cbn [auth_router].
  - left. now rewrite fmap_run.
  - destruct (Depends_verify_token_run ctx
      (fun current_user => fmap Message
         (signup user_schema (Some current_user) (salt ctx))) db)
      as [(e & _ & ->)|(user & _ & ->)]; [auto|].
    rewrite fmap_run.
    destruct (signup user_schema (Some user) (salt ctx) db)
      as [[m db']|e] eqn:Hrun; [|auto].
    apply signup_inv in Hrun as [Hfresh ->]. right. eauto.
  - rewrite fmap_run.
    destruct (signup_admin user_schema (salt ctx) db)
      as [[m db']|e] eqn:Hrun; [|auto].
    apply signup_admin_inv in Hrun as [Hfresh ->]. right. eauto.
  - left. rewrite fmap_run, login_run.
    destruct (find_email _ db); [destruct (passlib.verify _ _)|]; auto.
  - left. rewrite fmap_run, login_form_run.
    destruct (find_email _ db); [destruct (passlib.verify _ _)|]; auto.
  - left. destruct (Depends_verify_token_run ctx
      (fun user => fmap Issued (user_refresh_token user (now ctx))) db)
      as [(e & _ & ->)|(user & _ & ->)]; auto.
Qed.

Lemma find_email_absent email db :
  find_email email db = None -> ~ In email (map User.email (users db)).
Proof.
  unfold find_email. intros Hnone Hin.
  apply in_map_iff in Hin as (u & Hu & Hin).
  apply (find_none _ _ Hnone) in Hin. rewrite Hu in Hin.
  now rewrite String.eqb_refl in Hin.
Qed.

Lemma NoDup_snoc {T} (l : list T) (x : T) :
  NoDup l -> ~ In x l -> NoDup (l ++ [x]).
Proof.
  intros Hl Hx. apply NoDup_app; [exact Hl|constructor; [intros []|constructor]|].
  intros y Hy [<-|[]]. contradiction.
Qed.

Lemma users_keyed_serve db ctx r :
  users_keyed db -> users_keyed (serve db ctx r).
Proof.
  intros [Hids Hbound Hemails].
  destruct (serve_users db ctx r)
    as [[Hsame Hseq]|(user_schema & digest & Hfresh & ->)].
  - split; rewrite ?Hsame, ?Hseq; assumption.
  - split; cbn [users users_seq with_users]; rewrite ?map_app.
    + apply NoDup_snoc; [exact Hids|]. cbn [map User.id user_row].
      intros Hin. apply in_map_iff in Hin as (u & Hu & Hin).
      rewrite Forall_forall in Hbound. specialize (Hbound u Hin). lia.
    + apply Forall_app. split.
      * eapply Forall_impl; [|exact Hbound]. simpl. intros; lia.
      * constructor; [simpl; lia|constructor].
    + apply NoDup_snoc; [exact Hemails|]. cbn [map User.email user_row].
      now apply find_email_absent.
Qed.

Lemma reachable_keyed db : reachable db -> users_keyed db.
Proof.
  induction 1 as [|db ctx r _ IH].
  - split; simpl; constructor.
  - now apply users_keyed_serve.
Qed.

(** X8: In every store the application can reach no e-mail is registered
    twice and no two users share a key, although the table declares no
    unique constraint on the e-mail: the duplicate check of the two
    signups is what keeps it. *)
Theorem reachable_users_keyed db :
  reachable db ->
  NoDup (map User.email (users db))
  /\ NoDup (map User.id (users db))
  /\ Forall (fun u => User.id u < users_seq db) (users db).
Proof.
  intros Hr. apply reachable_keyed in Hr. destruct Hr; auto.
Qed.

Lemma find_app_found {T} (p : T -> bool) (l l' : list T) (x : T) :
  find p l = Some x -> find p (l ++ l') = Some x.
Proof.
  induction l as [|y l IH]; simpl; [discriminate|].
  destruct (p y); auto.
Qed.

(** X9: Accounts are permanent: whatever request is served, a user found
    under a key or under an e-mail is found there afterwards, the same
    row with the same digest and the same admin flag. *)
Theorem accounts_are_permanent db ctx r :
  (forall user_id user,
      find_user user_id db = Some user ->
      find_user user_id (serve db ctx r) = Some user)
  /\ (forall email user,
      find_email email db = Some user ->
      find_email email (serve db ctx r) = Some user)
  /\ (admin_exists db = true -> admin_exists (serve db ctx r) = true).
Proof.
  destruct (serve_users db ctx r)
    as [[Hsame _]|(user_schema & digest & _ & ->)].
  - unfold find_user, find_email, admin_exists. rewrite Hsame. auto.
  - unfold find_user, find_email, admin_exists; cbn [users with_users].
    split; [|split].
    + intros user_id user. apply find_app_found.
    + intros email user. apply find_app_found.
    + rewrite existsb_app. now intros ->.
Qed.

Lemma find_user_by_key db user :
  NoDup (map User.id (users db)) ->
  In user (users db) ->
  find_user (User.id user) db = Some user.
Proof.
  unfold find_user. induction (users db) as [|u l IH]; simpl;
    intros Hnd Hin; [contradiction|].
  inversion Hnd as [|? ? Hout Hnd']; subst.
  destruct Hin as [->|Hin]; [now rewrite Z.eqb_refl|].
  destruct (User.id u =? User.id user) eqn:E; [|auto].
  apply Z.eqb_eq in E. exfalso. apply Hout. rewrite E. now apply in_map.
Qed.

(** X10: In a reachable store the tokens of a login resolve to the very user
    whose password was checked: [verify_token] answers with that row for
    the access token until it expires and for the refresh token for seven
    days. *)
Theorem login_tokens_name_the_user login_schema issued tokens db db' :
  reachable db ->
  login login_schema issued db = Ok (tokens, db') ->
  exists user refresh,
    find_email (LoginSchema.email login_schema) db = Some user
    /\ passlib.verify (LoginSchema.password login_schema)
                      (User.password user) = true
    /\ refresh_token tokens = Some refresh
    /\ (forall now,
          now <= issued + 60 * ACCESS_TOKEN_EXPIRE_MINUTES ->
          verify_token (Some (access_token tokens)) now db = Ok (user, db))
    /\ (forall now,
          now <= issued + 7 * 86400 ->
          verify_token (Some refresh) now db = Ok (user, db)).
Proof.
  intros Hr. rewrite login_run.
  destruct (find_email _ db) as [user|] eqn:Hu; [|discriminate].
  destruct (passlib.verify _ _) eqn:Hpw; [|discriminate].
  intros [= <- <-]. cbn [access_token refresh_token].
  assert (Hkey : find_user (User.id user) db = Some user).
  { apply reachable_keyed in Hr as Hk.
    apply find_user_by_key; [now destruct Hk|].
    unfold find_email in Hu. now apply find_some in Hu. }
  exists user, (get_token (User.id user) refresh_token_time issued).
  repeat split; auto.
  - intros now Hnow. now apply get_token_accepted.
  - intros now Hnow. now apply get_token_accepted.
Qed.

End Accounts.

(* ===================================================================== *)
(** ** Orders over time *)

Section Orders.
Context {F : PyFloat} {cfg : Settings}.

Lemma find_order_unique order_id target o o1 db :
  find_order order_id db = Some o ->
  find_order target db = Some o1 ->
  Order.id o1 = Order.id o ->
  o1 = o.
Proof.
  intros Ho Ho1 Hid.
  apply find_order_key in Ho. apply find_order_key in Ho1.
  rewrite Hid in Ho1. congruence.
Qed.

(** X11: An order, once created, stays: whatever request is served it is found
    under its key afterwards, with the same key and the same owner.  No
    route deletes an order or hands it to another user. *)
Theorem orders_keep_key_and_owner db ctx r order_id o :
  find_order order_id db = Some o ->
  exists o',
    find_order order_id (serve db ctx r) = Some o'
    /\ Order.id o' = Order.id o
    /\ Order.user o' = Order.user o.
Proof.
  intros Ho.
  assert (Hwritten : forall target o1 o2 db1,
    find_order order_id db1 = Some o ->
    find_order target db1 = Some o1 ->
    Order.id o2 = Order.id o1 -> Order.user o2 = Order.user o1 ->
    exists o', find_order order_id (written o2 db1) = Some o'
               /\ Order.id o' = Order.id o /\ Order.user o' = Order.user o).
  { intros target o1 o2 db1 Hfound Ho1 Hid Huser.
    rewrite find_order_written, Hfound. simpl.
    destruct (Order.id o =? Order.id o2) eqn:E; [|eauto].
    apply Z.eqb_eq in E. exists o2.
    assert (o1 = o) by (eapply find_order_unique; eauto; congruence).
    subst o1. auto. }
  destruct (serve_effect db ctx r) as
    [ | | |target s o1 Ho1|order_item_id it o1 Hit Ho1
     |target o1 Ho1|target o1 Ho1].
  - eauto.
  - eauto.
  - exists o. split; [|auto]. now apply find_order_appended.
  - apply (Hwritten target o1); auto.
  - apply (Hwritten (OrderItens.order it) o1); auto.
  - apply (Hwritten target o1); auto.
  - apply (Hwritten target o1); auto.
Qed.

Lemma find_filter_out {T} (p q : T -> bool) (l : list T) :
  (forall x, p x = true -> q x = false) ->
  find p (filter q l) = None.
Proof.
  intros Hpq. induction l as [|x l IH]; simpl; [reflexivity|].
  destruct (q x) eqn:Q; [|exact IH]. simpl.
  destruct (p x) eqn:P; [|exact IH].
  rewrite (Hpq x P) in Q. discriminate.
Qed.

(** X12: An item that [remove_iten_order] removed is gone: it is no longer
    found under its key, and removing it again is answered 400 whoever
    asks. *)
Theorem removed_item_is_gone order_item_id p a db db' :
  remove_iten_order order_item_id p db = Ok (a, db') ->
  find_item order_item_id db' = None
  /\ forall q,
       remove_iten_order order_item_id q db'
       = Raise (HTTPException 400 "Item not found.").
Proof.
  intros Hrun.
  destruct (remove_iten_order_inv _ _ _ _ _ Hrun) as (it & o & Hit & Ho & Hp).
  apply admin_or_owner_iff in Hp.
  rewrite (remove_iten_order_run _ p _ _ _ Hit Ho), Hp in Hrun.
  cbv zeta in Hrun. injection Hrun as _ <-.
  apply find_item_some in Hit as [Hkey _].
  assert (Hgone : find_item order_item_id
            (written (repriced o (item_deleted (OrderItens.id it) db))
                     (item_deleted (OrderItens.id it) db)) = None).
  { unfold find_item, written, item_deleted;
      cbn [order_itens with_orders with_order_itens].
    apply find_filter_out. intros x Hx. apply Z.eqb_eq in Hx.
    rewrite Hkey, Hx. now rewrite Z.eqb_refl. }
  split; [exact Hgone|].
  intros q. unfold remove_iten_order. not_found Hgone. reflexivity.
Qed.

(** X13: In a reachable store every item belongs to an order that exists, so
    [remove_iten_order] never reaches [order.user] or
    [order.calculate_price()] on a missing order: it returns, or answers
    400 for an unknown item, or 403. *)
Theorem remove_iten_order_answers order_item_id p db :
  reachable db ->
  succeeds (remove_iten_order order_item_id p) db
  \/ remove_iten_order order_item_id p db
     = Raise (HTTPException 400 "Item not found.")
  \/ remove_iten_order order_item_id p db
     = Raise (HTTPException 403 "You are not authorized to make this request.").
Proof.
  intros Hr. apply reachable_consistent in Hr.
  destruct (find_item order_item_id db) as [it|] eqn:Hit.
  - destruct (find_order (OrderItens.order it) db) as [o|] eqn:Ho.
    + unfold succeeds. rewrite (remove_iten_order_run _ p _ _ _ Hit Ho).
      destruct (User.admin p || _); [left; cbv zeta; eauto|].
      right. right. reflexivity.
    + exfalso. apply find_item_some in Hit as [_ Hin].
      destruct Hr as [_ _ _ Hex _]. rewrite Forall_forall in Hex.
      exact (Hex it Hin Ho).
  - right. left. unfold remove_iten_order. not_found Hit. reflexivity.
Qed.

(** X14: [get_order] after an accepted [add_iten_order] on the same order
    counts one item more than before and shows the price the add answered
    with; key, owner and status of the order are as they were. *)
Theorem add_then_get_order order_id s p order_item_id order_price db db' :
  add_iten_order order_id s p db = Ok ((order_item_id, order_price), db') ->
  exists n o o',
    get_order order_id p db = Ok ((n, o), db)
    /\ get_order order_id p db' = Ok ((n + 1, o'), db')
    /\ Order.price o' = order_price
    /\ Order.id o' = Order.id o
    /\ Order.user o' = Order.user o
    /\ Order.status o' = Order.status o.
Proof.
  intros Hrun.
  destruct (add_iten_order_inv _ _ _ _ _ _ Hrun) as (o & Ho & Hp).
  destruct (add_iten_order_accepted order_id s p o db Ho Hp)
    as (db1 & Hrun1 & _ & Hitens & _).
  pose proof Hp as Hb. apply admin_or_owner_iff in Hb.
  pose proof (add_iten_order_run _ s p _ _ Ho) as Hrun2.
  rewrite Hb, Hrun in Hrun2. cbv zeta in Hrun2.
  injection Hrun2 as _ Hprice Hdb.
  rewrite Hrun in Hrun1. injection Hrun1 as _ _ Hdb1. subst db1.
  apply find_order_some in Ho as Hid. destruct Hid as [Hid _].
  set (dbA := item_added (item_row order_id s db) db) in *.
  assert (Ho' : find_order order_id db' = Some (repriced o dbA)).
  { rewrite Hdb. apply find_order_written_same with (o := o); auto. }
  exists (Z.of_nat (List.length (itens_of order_id db))), o, (repriced o dbA).
  split; [|split].
  - rewrite (get_order_run _ p _ _ Ho), Hb, Hid. reflexivity.
  - rewrite (get_order_run _ p _ _ Ho').
    cbn [repriced Order.user Order.id Order.set_price]. rewrite Hb, Hid.
    rewrite Hitens, length_app. simpl List.length.
    rewrite Nat2Z.inj_add. reflexivity.
  - cbn [repriced Order.price Order.set_price Order.id Order.user
         Order.status]. rewrite Hprice. auto.
Qed.

Lemma find_order_next db :
  Forall (fun o => Order.id o < orders_seq db) (orders db) ->
  find_order (orders_seq db) db = None.
Proof.
  unfold find_order. intros Hok.
  induction Hok as [|x l Hx _ IH]; simpl; [reflexivity|].
  destruct (Order.id x =? orders_seq db) eqn:E; [|exact IH].
  apply Z.eqb_eq in E. lia.
Qed.

(** X15: [order] creates an order exactly for an admin or for the principal's
    own key and answers 403 otherwise.  In a reachable store the key it
    returns was not in use, and [get_order] on it then shows the new
    order: owned by the user of the payload, pending, priced at the
    initial 0, with no item. *)
Theorem order_then_get_order order_schema p db :
  reachable db ->
  (User.admin p = false ->
   User.id p <> OrderSchema.user_id order_schema ->
   order order_schema p db
   = Raise (HTTPException 403 "You are not authorized to make this request."))
  /\ (User.admin p = true \/ User.id p = OrderSchema.user_id order_schema ->
      exists order_id o db',
        order order_schema p db = Ok (order_id, db')
        /\ find_order order_id db = None
        /\ get_order order_id p db' = Ok ((0, o), db')
        /\ Order.id o = order_id
        /\ Order.user o = OrderSchema.user_id order_schema
        /\ Order.status o = "pending"
        /\ Order.price o = num_zero).
Proof.
  intros Hr. apply reachable_consistent in Hr. rewrite order_run. split.
  - intros -> Hne. apply Z.eqb_neq in Hne. now rewrite Hne.
  - intros Hp.
    assert (Hb : User.admin p
                 || (User.id p =? OrderSchema.user_id order_schema) = true).
    { rewrite orb_true_iff, Z.eqb_eq. exact Hp. }
    rewrite Hb.
    set (row := order_row (OrderSchema.user_id order_schema) db).
    set (db' := with_orders db (orders db ++ [row]) (orders_seq db + 1)).
    assert (Hnew : find_order (orders_seq db) db = None).
    { apply find_order_next. now destruct Hr. }
    assert (Hrow : find_order (orders_seq db) db' = Some row).
    { unfold find_order in *. unfold db'; cbn [orders with_orders].
      rewrite find_app_last, Hnew. cbn [Order.id row order_row].
      now rewrite Z.eqb_refl. }
    exists (orders_seq db), row, db'.
    split; [reflexivity|]. split; [exact Hnew|].
    split; [|repeat split].
    rewrite (get_order_run _ p _ _ Hrow).
    cbn [Order.user Order.id row order_row]. rewrite Hb.
    change (itens_of (orders_seq db) db') with (itens_of (orders_seq db) db).
    now rewrite (no_items_of_next_order db Hr).
Qed.

(** X16: Whether an order key exists shows before ownership is looked at: each
    of the four handlers that take an order key answers 400 exactly when
    no order has it, to every principal, and [remove_iten_order] answers
    400 exactly when no item has the key. *)
Theorem unknown_key_is_400 (p : User.t) (db : Store) :
  (forall order_id,
      find_order order_id db = None <->
      get_order order_id p db = Raise (HTTPException 400 "Order not found."))
  /\ (forall order_id s,
      find_order order_id db = None <->
      add_iten_order order_id s p db
      = Raise (HTTPException 400 "Order not found."))
  /\ (forall order_id,
      find_order order_id db = None <->
      cancel_order order_id p db
      = Raise (HTTPException 400 "Order not found."))
  /\ (forall order_id,
      find_order order_id db = None <->
      complete_order order_id p db
      = Raise (HTTPException 400 "Order not found."))
  /\ (forall order_item_id,
      find_item order_item_id db = None <->
      remove_iten_order order_item_id p db
      = Raise (HTTPException 400 "Item not found.")).
Proof.
  split; [|split; [|split; [|split]]].
  - intros order_id. destruct (find_order order_id db) as [o|] eqn:Ho.
    + rewrite (get_order_run _ p _ _ Ho).
      split; [discriminate|]. now destruct (User.admin p || _).
    + split; [intros _|reflexivity].
      unfold get_order. not_found Ho. reflexivity.
  - intros order_id s. destruct (find_order order_id db) as [o|] eqn:Ho.
    + rewrite (add_iten_order_run _ s p _ _ Ho).
      split; [discriminate|]. now destruct (User.admin p || _).
    + split; [intros _|reflexivity].
      unfold add_iten_order. not_found Ho. reflexivity.
  - intros order_id. destruct (find_order order_id db) as [o|] eqn:Ho.
    + rewrite (cancel_order_run _ p _ _ Ho).
      split; [discriminate|]. now destruct (User.admin p || _).
    + split; [intros _|reflexivity].
      unfold cancel_order. not_found Ho. reflexivity.
  - intros order_id. destruct (find_order order_id db) as [o|] eqn:Ho.
    + rewrite (complete_order_run _ p _ _ Ho).
      split; [discriminate|]. now destruct (User.admin p || _).
    + split; [intros _|reflexivity].
      unfold complete_order. not_found Ho. reflexivity.
  - intros order_item_id.
    destruct (find_item order_item_id db) as [it|] eqn:Hit.
    + split; [discriminate|].
      destruct (find_order (OrderItens.order it) db) as [o|] eqn:Ho.
      * rewrite (remove_iten_order_run _ p _ _ _ Hit Ho).
        now destruct (User.admin p || _).
      * unfold remove_iten_order. not_found Hit. not_found Ho. discriminate.
    + split; [intros _|reflexivity].
      unfold remove_iten_order. not_found Hit. reflexivity.
Qed.

End Orders.

(* ===================================================================== *)
(** ** What a principal who is not admin can see and change *)

Section Isolation.
Context {F : PyFloat} {cfg : Settings}.

Lemma owner_of_gate p o :
  User.admin p = false ->
  User.admin p || (User.id p =? Order.user o) = true ->
  Order.user o = User.id p.
Proof.
  intros -> H. simpl in H. apply Z.eqb_eq in H. congruence.
Qed.

(** X17: [list_user_orders] answers an admin, and the user asking for their own
    key, with exactly the stored orders of that user, and leaves the
    store; it answers 403 to everybody else. *)
Theorem list_user_orders_exact user_id p db :
  (User.admin p = true \/ User.id p = user_id ->
   exists user_orders_list,
     list_user_orders user_id p db = Ok (user_orders_list, db)
     /\ forall o, In o user_orders_list
                  <-> In o (orders db) /\ Order.user o = user_id)
  /\ (User.admin p = false -> User.id p <> user_id ->
      list_user_orders user_id p db
      = Raise (HTTPException 403 "You are not authorized to make this request.")).
Proof.
  unfold list_user_orders. rewrite gate_bool. split.
  - intros Hp.
    replace (User.admin p || (User.id p =? user_id)) with true
      by (symmetry; rewrite orb_true_iff, Z.eqb_eq; exact Hp).
    cbn [negb]. unfold bind, query_all, ret. eexists. split; [reflexivity|].
    intros o. rewrite filter_In, Z.eqb_eq. reflexivity.
  - intros -> Hne. apply Z.eqb_neq in Hne. now rewrite Hne.
Qed.

(** X18: No order route hands a principal who is not admin an order of
    somebody else: every order in the response of a route that returned is
    owned by the principal. *)
Theorem responses_carry_own_orders r p resp db db' :
  User.admin p = false ->
  order_route r p db = Ok (resp, db') ->
  Forall (fun o => Order.user o = User.id p) (orders_in resp).
Proof.
  intros Hp. destruct r; cbn [order_route]; rewrite fmap_run.
  - intros [= <- _]. constructor.
  - destruct (order _ _ db) as [[a d]|e]; [|discriminate].
    intros [= <- _]. constructor.
  - unfold list_orders. rewrite Hp. discriminate.
  - unfold list_user_orders. rewrite Hp. cbn [negb andb].
    destruct (User.id p =? user_id) eqn:E; [|discriminate].
    apply Z.eqb_eq in E. cbn [negb]. unfold bind, query_all, ret.
    intros [= <- _]. cbn [orders_in]. apply Forall_forall.
    intros o Ho. apply filter_In in Ho as [_ Ho]. apply Z.eqb_eq in Ho.
    congruence.
  - destruct (find_order order_id db) as [o|] eqn:Ho.
    + rewrite (get_order_run _ p _ _ Ho).
      destruct (User.admin p || _) eqn:Hb; [|discriminate].
      intros [= <- _]. cbn [orders_in]. constructor; [|constructor].
      now apply owner_of_gate.
    + unfold get_order. not_found Ho. discriminate.
  - destruct (add_iten_order _ _ _ db) as [[a d]|e]; [|discriminate].
    intros [= <- _]. constructor.
  - destruct (find_item order_item_id db) as [it|] eqn:Hit.
    + destruct (find_order (OrderItens.order it) db) as [o|] eqn:Ho.
      * rewrite (remove_iten_order_run _ p _ _ _ Hit Ho).
        destruct (User.admin p || _) eqn:Hb; [|discriminate].
        cbv zeta. intros [= <- _]. cbn [orders_in].
        constructor; [|constructor].
        cbn [repriced Order.user Order.set_price]. now apply owner_of_gate.
      * unfold remove_iten_order. not_found Hit. not_found Ho. discriminate.
    + unfold remove_iten_order. not_found Hit. discriminate.
  - destruct (find_order order_id db) as [o|] eqn:Ho.
    + rewrite (cancel_order_run _ p _ _ Ho).
      destruct (User.admin p || _) eqn:Hb; [|discriminate].
      intros [= <- _]. cbn [orders_in]. constructor; [|constructor].
      cbn [Order.user Order.set_status]. now apply owner_of_gate.
    + unfold cancel_order. not_found Ho. discriminate.
  - destruct (find_order order_id db) as [o|] eqn:Ho.
    + rewrite (complete_order_run _ p _ _ Ho).
      destruct (User.admin p || _) eqn:Hb; [|discriminate].
      intros [= <- _]. cbn [orders_in]. constructor; [|constructor].
      cbn [Order.user Order.set_status]. now apply owner_of_gate.
    + unfold complete_order. not_found Ho. discriminate.
Qed.

(** A write to the row of one order leaves the rows and the items of the
    orders with another key. *)
Lemma written_elsewhere k o1 o2 target db0 db1 o :
  find_order k db0 = Some o ->
  find_order target db0 = Some o1 ->
  Order.user o1 <> Order.user o ->
  Order.id o2 = Order.id o1 ->
  find_order k db1 = find_order k db0 ->
  find_order k (written o2 db1) = Some o.
Proof.
  intros Ho Ho1 Hne Hid Hsame.
  rewrite find_order_written_other; [congruence|].
  intros E. apply Hne. f_equal.
  eapply find_order_unique; eauto. apply find_order_some in Ho as [Hk _].
  congruence.
Qed.

(** X19: In a reachable store a principal who is not admin changes nothing of
    the orders of other users: whatever order route returns for that
    principal, an order owned by somebody else is found afterwards as the
    same row with the same items. *)
Theorem other_users_orders_untouched r p resp db db' k o :
  reachable db ->
  User.admin p = false ->
  order_route r p db = Ok (resp, db') ->
  find_order k db = Some o ->
  Order.user o <> User.id p ->
  find_order k db' = Some o /\ itens_of k db' = itens_of k db.
Proof.
  intros Hr Hp Hrun Ho Hother. apply reachable_consistent in Hr.
  revert Hrun. destruct r; cbn [order_route]; rewrite fmap_run.
  - intros [= _ <-]. auto.
  - rewrite order_run. destruct (User.admin p || _); [|discriminate].
    intros [= _ <-]. split; [|reflexivity]. now apply find_order_appended.
  - unfold list_orders. rewrite Hp. discriminate.
  - unfold list_user_orders, bind, query_all, ret.
    destruct (negb _ && negb _); [discriminate|]. intros [= _ <-]. auto.
  - destruct (find_order order_id db) as [o1|] eqn:Ho1.
    + rewrite (get_order_run _ p _ _ Ho1).
      destruct (User.admin p || _); [|discriminate]. intros [= _ <-]. auto.
    + unfold get_order. not_found Ho1. discriminate.
  - destruct (find_order order_id db) as [o1|] eqn:Ho1.
    + rewrite (add_iten_order_run _ order_item_schema p _ _ Ho1).
      destruct (User.admin p || _) eqn:Hb; [|discriminate].
      cbv zeta. intros [= _ <-].
      pose proof (owner_of_gate p o1 Hp Hb) as Hown.
      split.
      * apply (written_elsewhere k o1 _ order_id db); auto; congruence.
      * change (itens_of k (written ?x ?d)) with (itens_of k d).
        rewrite itens_of_item_added. cbn [OrderItens.order item_row].
        destruct (order_id =? k) eqn:E; [|apply app_nil_r].
        apply Z.eqb_eq in E. subst k. congruence.
    + unfold add_iten_order. not_found Ho1. discriminate.
  - destruct (find_item order_item_id db) as [it|] eqn:Hit.
    + destruct (find_order (OrderItens.order it) db) as [o1|] eqn:Ho1.
      * rewrite (remove_iten_order_run _ p _ _ _ Hit Ho1).
        destruct (User.admin p || _) eqn:Hb; [|discriminate].
        cbv zeta. intros [= _ <-].
        pose proof (owner_of_gate p o1 Hp Hb) as Hown.
        split.
        -- apply (written_elsewhere k o1 _ (OrderItens.order it) db);
             auto; congruence.
        -- change (itens_of k (written ?x ?d)) with (itens_of k d).
           apply find_item_some in Hit as [_ Hin].
           apply itens_of_item_deleted_other; auto; [now destruct Hr|].
           intros E. subst k. congruence.
      * unfold remove_iten_order. not_found Hit. not_found Ho1. discriminate.
    + unfold remove_iten_order. not_found Hit. discriminate.
  - destruct (find_order order_id db) as [o1|] eqn:Ho1.
    + rewrite (cancel_order_run _ p _ _ Ho1).
      destruct (User.admin p || _) eqn:Hb; [|discriminate].
      intros [= _ <-].
      pose proof (owner_of_gate p o1 Hp Hb) as Hown.
      split; [|reflexivity].
      apply (written_elsewhere k o1 _ order_id db); auto; congruence.
    + unfold cancel_order. not_found Ho1. discriminate.
  - destruct (find_order order_id db) as [o1|] eqn:Ho1.
    + rewrite (complete_order_run _ p _ _ Ho1).
      destruct (User.admin p || _) eqn:Hb; [|discriminate].
      intros [= _ <-].
      pose proof (owner_of_gate p o1 Hp Hb) as Hown.
      split; [|reflexivity].
      apply (written_elsewhere k o1 _ order_id db); auto; congruence.
    + unfold complete_order. not_found Ho1. discriminate.
Qed.

End Isolation.

(* ===================================================================== *)
(** ** Order keys, and setting a status twice *)

Section OrderKeys.
Context {F : PyFloat} {cfg : Settings}.

Lemma written_keys o db :
  map Order.id (orders (written o db)) = map Order.id (orders db).
Proof.
  unfold written; cbn [orders with_orders]. rewrite map_map.
  apply map_ext. intros x.
  destruct (Order.id x =? Order.id o) eqn:E; [|reflexivity].
  apply Z.eqb_eq in E. congruence.
Qed.

Lemma effect_order_keys db r db' :
  consistent db -> order_keys_distinct db -> effect db r db' ->
  order_keys_distinct db'.
Proof.
  unfold order_keys_distinct. intros Hc Hnd He.
  destruct He; rewrite ?written_keys; auto.
  cbn [orders with_orders]. rewrite map_app.
  apply NoDup_snoc; [exact Hnd|]. cbn [map Order.id order_row].
  intros Hin. apply in_map_iff in Hin as (x & Hx & Hin).
  destruct Hc as [_ _ Hok _ _]. rewrite Forall_forall in Hok.
  specialize (Hok x Hin). lia.
Qed.

Lemma reachable_order_keys db : reachable db -> order_keys_distinct db.
Proof.
  induction 1 as [|db ctx r Hr IH].
  - constructor.
  - eapply effect_order_keys; [|exact IH|apply serve_effect].
    now apply reachable_consistent.
Qed.

Lemma find_order_by_key db o :
  order_keys_distinct db -> In o (orders db) ->
  find_order (Order.id o) db = Some o.
Proof.
  unfold order_keys_distinct, find_order.
  induction (orders db) as [|x l IH]; simpl; intros Hnd Hin; [contradiction|].
  inversion Hnd as [|? ? Hout Hnd']; subst.
  destruct Hin as [->|Hin]; [now rewrite Z.eqb_refl|].
  destruct (Order.id x =? Order.id o) eqn:E; [|auto].
  apply Z.eqb_eq in E. exfalso. apply Hout. rewrite E. now apply in_map.
Qed.

(** X20: In a reachable store the list an admin gets from [list_orders] and
    [get_order] agree: the listed orders have distinct keys, [get_order]
    on the key of a listed order returns that very order with the count of
    its items, and the listed price is the total of those items. *)
Theorem listed_orders_are_fetched_by_key p db :
  reachable db ->
  User.admin p = true ->
  exists orders_list,
    list_orders p db = Ok (orders_list, db)
    /\ NoDup (map Order.id orders_list)
    /\ forall o,
        In o orders_list ->
        get_order (Order.id o) p db
        = Ok ((Z.of_nat (List.length (itens_of (Order.id o) db)), o), db)
        /\ Order.price o = py_sum (map line_total (itens_of (Order.id o) db)).
Proof.
  intros Hr Hp. exists (orders db).
  pose proof (reachable_order_keys db Hr) as Hkeys.
  apply reachable_consistent in Hr.
  split; [|split; [exact Hkeys|]].
  - unfold list_orders. rewrite Hp. cbn [negb].
    unfold bind, query_all, ret. now rewrite filter_all.
  - intros o Hin. split.
    + rewrite (get_order_run _ p o db (find_order_by_key db o Hkeys Hin)).
      now rewrite Hp.
    + destruct Hr as [_ _ _ _ Hprice]. rewrite Forall_forall in Hprice.
      exact (Hprice o Hin).
Qed.

Lemma written_twice o db : written o (written o db) = written o db.
Proof.
  unfold written, with_orders; cbn [orders orders_seq users users_seq
    order_itens order_itens_seq]. f_equal. rewrite map_map.
  apply map_ext. intros x.
  destruct (Order.id x =? Order.id o) eqn:E; [|now rewrite E].
  now rewrite Z.eqb_refl.
Qed.

Lemma status_set_twice order_id p o status db
    (handler : Z -> User.t -> Session Order.t) :
  (forall o0 db0, find_order order_id db0 = Some o0 ->
     handler order_id p db0 =
       if User.admin p || (User.id p =? Order.user o0)
       then Ok (Order.set_status o0 status,
                written (Order.set_status o0 status) db0)
       else Raise not_authorized) ->
  find_order order_id db = Some o ->
  User.admin p || (User.id p =? Order.user o) = true ->
  handler order_id p (written (Order.set_status o status) db)
  = Ok (Order.set_status o status, written (Order.set_status o status) db).
Proof.
  intros Hrun Ho Hb.
  assert (Ho' : find_order order_id (written (Order.set_status o status) db)
                = Some (Order.set_status o status)).
  { apply find_order_written_same with (o := o); auto. }
  rewrite (Hrun _ _ Ho'). cbn [Order.user Order.set_status]. rewrite Hb.
  change (Order.set_status (Order.set_status o status) status)
    with (Order.set_status o status).
  now rewrite written_twice.
Qed.

(** X21: Cancelling a canceled order, and completing a completed one, is
    accepted again and changes nothing: the second call returns the same
    order and leaves the store the first call left. *)
Theorem status_set_again_changes_nothing order_id p o1 db db1 :
  (cancel_order order_id p db = Ok (o1, db1) ->
   cancel_order order_id p db1 = Ok (o1, db1))
  /\ (complete_order order_id p db = Ok (o1, db1) ->
      complete_order order_id p db1 = Ok (o1, db1)).
Proof.
  split; intros Hrun.
  - destruct (find_order order_id db) as [o|] eqn:Ho.
    + rewrite (cancel_order_run _ p _ _ Ho) in Hrun.
      destruct (User.admin p || _) eqn:Hb; [|discriminate].
      injection Hrun as <- <-.
      apply (status_set_twice order_id p o "canceled" db cancel_order);
        auto.
      intros o0 db0 H0. apply (cancel_order_run _ p _ _ H0).
    + unfold cancel_order in Hrun. revert Hrun. not_found Ho. discriminate.
  - destruct (find_order order_id db) as [o|] eqn:Ho.
    + rewrite (complete_order_run _ p _ _ Ho) in Hrun.
      destruct (User.admin p || _) eqn:Hb; [|discriminate].
      injection Hrun as <- <-.
      apply (status_set_twice order_id p o "completed" db complete_order);
        auto.
      intros o0 db0 H0. apply (complete_order_run _ p _ _ H0).
    + unfold complete_order in Hrun. revert Hrun. not_found Ho. discriminate.
Qed.

End OrderKeys.

(* ===================================================================== *)
(** ** Items over time, and the shape of every reachable store *)

Section Shape.
Context {F : PyFloat} {cfg : Settings}.

Lemma find_filter_other {T} (p q : T -> bool) (l : list T) :
  (forall x, p x = true -> q x = true) ->
  find p (filter q l) = find p l.
Proof.
  intros Hpq. induction l as [|x l IH]; simpl; [reflexivity|].
  destruct (q x) eqn:Q; simpl.
  - now rewrite IH.
  - destruct (p x) eqn:P; [|exact IH].
    rewrite (Hpq x P) in Q. discriminate.
Qed.

(** X22: No route edits an item, and an item leaves the store only through
    [remove_iten_order] on its own key: whatever other request is served,
    an item found under a key is found there afterwards, the same row. *)
Theorem items_stay_until_removed db ctx r order_item_id it :
  find_item order_item_id db = Some it ->
  r <> Orders (POST_orders_order_remove_item order_item_id) ->
  find_item order_item_id (serve db ctx r) = Some it.
Proof.
  intros Hit Hr.
  destruct (serve_effect db ctx r) as
    [ | | |target s o1 Ho1|removed it1 o1 Hit1 Ho1
     |target o1 Ho1|target o1 Ho1]; try exact Hit.
  - change (find_item order_item_id (written ?x ?d))
      with (find_item order_item_id d).
    unfold find_item, item_added; cbn [order_itens with_order_itens].
    now apply find_app_found.
  - change (find_item order_item_id (written ?x ?d))
      with (find_item order_item_id d).
    unfold find_item, item_deleted; cbn [order_itens with_order_itens].
    rewrite find_filter_other; [exact Hit|].
    intros x Hx. apply Z.eqb_eq in Hx. apply negb_true_iff, Z.eqb_neq.
    apply find_item_some in Hit1 as [Hkey _]. intros E.
    apply Hr. congruence.
Qed.

(** X23: In every store the application can reach, the price of every
    order is the sum over its items of unit_price * quantity, order keys
    and item keys are distinct, and every item belongs to an order of the
    store. *)
Theorem reachable_store_shape db :
  reachable db ->
  (forall o, In o (orders db) ->
     Order.price o = py_sum (map line_total (itens_of (Order.id o) db)))
  /\ NoDup (map Order.id (orders db))
  /\ NoDup (map OrderItens.id (order_itens db))
  /\ (forall it, In it (order_itens db) ->
        exists o, In o (orders db) /\ Order.id o = OrderItens.order it).
Proof.
  intros Hr. pose proof (reachable_order_keys db Hr) as Hkeys.
  apply reachable_consistent in Hr.
  destruct Hr as [Hitems _ _ Hexist Hprice].
  rewrite Forall_forall in Hexist, Hprice.
  split; [exact Hprice|]. split; [exact Hkeys|]. split; [exact Hitems|].
  intros it Hin. specialize (Hexist it Hin).
  destruct (find_order (OrderItens.order it) db) as [o|] eqn:Ho;
    [|contradiction].
  apply find_order_some in Ho as [Hid Ho]. eauto.
Qed.

End Shape.

(* ===================================================================== *)
(** ** The properties on concrete runs *)

Module Runs.
Import Fixture.

Lemma one_order_reachable : reachable one_order.
Proof.
  unfold one_order, two_users. repeat apply reachable_serve.
  apply reachable_empty.
Qed.

(** The scenario of the specification, on doubles: 3 x 2.50 = 7.50, plus
    1 x 10.00 = 17.50, minus the first item = 10.00, then completed. *)
Example pizza_scenario :
  let db1 := serve one_order as_bruno
               (Orders (POST_orders_order_add_item 1 (item 1 10%float))) in
  let db2 := serve db1 as_bruno (Orders (POST_orders_order_remove_item 1)) in
  let db3 := serve db2 as_bruno (Orders (POST_orders_complete 1)) in
  price_of 1 one_order = Some 7.5%float
  /\ price_of 1 db1 = Some 17.5%float
  /\ price_of 1 db2 = Some 10%float
  /\ status_in 1 db3 = Some "completed".
Proof. vm_compute. repeat split. Qed.




(** Neither final status holds: Bruno completes his order and then cancels
    it, and the completed order ends canceled; the other way round a
    canceled order ends completed. *)
Lemma completed_order_gets_canceled :
  (exists o1 db1 o2 db2,
      complete_order 1 bruno_row one_order = Ok (o1, db1)
      /\ status_in 1 db1 = Some "completed"
      /\ cancel_order 1 bruno_row db1 = Ok (o2, db2)
      /\ status_in 1 db2 = Some "canceled")
  /\ (exists o1 db1 o2 db2,
      cancel_order 1 bruno_row one_order = Ok (o1, db1)
      /\ status_in 1 db1 = Some "canceled"
      /\ complete_order 1 bruno_row db1 = Ok (o2, db2)
      /\ status_in 1 db2 = Some "completed").
Proof.
  split; do 4 eexists; (split; [vm_compute; reflexivity|]);
    (split; [vm_compute; reflexivity|]);
    (split; [vm_compute; reflexivity|]); vm_compute; reflexivity.
Qed.


(** The duplicate check comes before the admin rule: an admin exists,
    admin is requested, and the principal is absent, or present and not
    admin; the e-mail is taken, and the answer is the 400 of the duplicate
    check, not a 403. *)
Lemma duplicate_email_precedes_admin_rule :
  admin_exists two_users = true
  /\ truthy (UserSchema.admin ana) = true
  /\ signup ana None "NaCl" two_users
     = Raise (HTTPException 400 "This user already exists with this email.")
  /\ signup ana (Some bruno_row) "NaCl" two_users
     = Raise (HTTPException 400 "This user already exists with this email.")
  /\ app as_bruno (Auth (POST_auth_signup ana)) two_users
     = Raise (HTTPException 400 "This user already exists with this email.")
  /\ ~ fails_with 403 (signup ana None "NaCl") two_users
  /\ ~ fails_with 403 (signup ana (Some bruno_row) "NaCl") two_users.
Proof.
  repeat split; intros (detail & H); vm_compute in H; discriminate.
Qed.

(** The principal of [/auth/signup] is not optional: without a token the
    route is answered 401, in the empty store and in a store with users,
    before any rule of the signup is looked at; [/auth/signup_admin] takes
    the same payload without one. *)
Lemma signup_needs_a_token :
  app (anonymous 1000) (Auth (POST_auth_signup bruno)) empty_store
    = Raise (HTTPException 401 "Not authenticated")
  /\ app (anonymous 2500) (Auth (POST_auth_signup carla)) two_users
     = Raise (HTTPException 401 "Not authenticated")
  /\ (exists db',
        app (anonymous 2500) (Auth (POST_auth_signup_admin carla)) two_users
        = Ok (Message (registered "carla@pizza.io"), db')).
Proof.
  split; [reflexivity|]. split; [reflexivity|]. eexists. reflexivity.
Qed.

(** Bruno's login at second 2000: the refresh token opens
    [GET /orders/order/1] seven days later, the access token is taken by
    [/auth/refresh] half an hour later. *)
Lemma token_kinds_are_interchangeable_witness :
  login bruno_login 2000 two_users = Ok (bruno_tokens, two_users)
  /\ app {| authorization := refresh_token bruno_tokens;
            now := 2000 + 7 * 86400; salt := "NaCl" |}
         (Orders (GET_orders_order 1)) one_order
     = order_route (GET_orders_order 1) bruno_row one_order
  /\ app {| authorization := Some (access_token bruno_tokens);
            now := 2000 + 60 * 30; salt := "NaCl" |}
         (Auth GET_auth_refresh) one_order
     = Ok (Issued {| access_token :=
                       get_token 2 access_token_time (2000 + 60 * 30);
                     refresh_token := None;
                     token_type := "Bearer" |}, one_order).
Proof.
  assert (Hlogin : login bruno_login 2000 two_users
                   = Ok (bruno_tokens, two_users)) by reflexivity.
  split; [exact Hlogin|].
  destruct (token_kinds_are_interchangeable bruno_login 2000 bruno_tokens
              two_users two_users Hlogin)
    as (user & refresh & Hin & Href & Hr & _ & Horders & Hrefresh & _).
  injection Href as <-.
  assert (Hid : User.id user = 2).
  { destruct Hin as [<-|[<-|[]]]; [|reflexivity].
    vm_compute in Hr. discriminate. }
  rewrite Hid in Horders, Hrefresh. split.
  - apply Horders; reflexivity.
  - apply (Hrefresh one_order bruno_row); reflexivity.
Defined.

End Runs.

(* ===================================================================== *)
(** ** Further concrete runs *)

Module Cases.
Import Fixture Fixture2.

Lemma two_orders_reachable : reachable two_orders.
Proof.
  unfold two_orders, one_order, two_users. repeat apply reachable_serve.
  apply reachable_empty.
Qed.


(** Bruno refreshes at second 2500 and once more half an hour later. *)
Lemma refreshed_token_refreshes_again_witness :
  exists user,
    verify_token (authorization as_bruno) (now as_bruno) two_users
    = Ok (user, two_users)
    /\ two_users = two_users
    /\ get_token 2 access_token_time 2500
       = get_token (User.id user) access_token_time (now as_bruno)
    /\ (None : option jose.token) = None
    /\ forall now' salt',
        now' <= now as_bruno + 60 * ACCESS_TOKEN_EXPIRE_MINUTES ->
        app (with_token (get_token 2 access_token_time 2500) now' salt')
            (Auth GET_auth_refresh) two_users
        = Ok (Issued {| access_token :=
                          get_token (User.id user) access_token_time now';
                        refresh_token := None;
                        token_type := "Bearer" |}, two_users).
Proof.
  apply (refreshed_token_refreshes_again as_bruno
           {| access_token := get_token 2 access_token_time 2500;
              refresh_token := None; token_type := "Bearer" |}
           two_users two_users).
  reflexivity.
Defined.

(** Carla signs up through [/auth/signup] with Ana's token and logs in. *)
Lemma signup_then_login_witness :
  login (credentials carla) 3000
    (serve two_users as_ana (Auth (POST_auth_signup carla)))
  = Ok ({| access_token := get_token 3 access_token_time 3000;
           refresh_token := Some (get_token 3 refresh_token_time 3000);
           token_type := "Bearer" |},
        serve two_users as_ana (Auth (POST_auth_signup carla)))
  /\ (forall password,
        password <> UserSchema.password carla ->
        login (credentials_with carla password) 3000
          (serve two_users as_ana (Auth (POST_auth_signup carla)))
        = Raise (HTTPException 400 "User not found or invalid password.")).
Proof.
  apply (signup_then_login carla (Some ana_row) "NaCl"
           (registered "carla@pizza.io") two_users
           (serve two_users as_ana (Auth (POST_auth_signup carla)))).
  reflexivity.
Defined.


(** The users of the fixture store. *)
Lemma reachable_users_keyed_witness :
  NoDup (map User.email (users one_order))
  /\ NoDup (map User.id (users one_order))
  /\ Forall (fun u => User.id u < users_seq one_order) (users one_order).
Proof.
  apply (reachable_users_keyed one_order). exact Runs.one_order_reachable.
Defined.

(** Bruno logs in at second 2000. *)
Lemma login_tokens_name_the_user_witness :
  exists user refresh,
    find_email (LoginSchema.email bruno_login) one_order = Some user
    /\ passlib.verify (LoginSchema.password bruno_login)
                      (User.password user) = true
    /\ refresh_token bruno_tokens = Some refresh
    /\ (forall now,
          now <= 2000 + 60 * ACCESS_TOKEN_EXPIRE_MINUTES ->
          verify_token (Some (access_token bruno_tokens)) now one_order
          = Ok (user, one_order))
    /\ (forall now,
          now <= 2000 + 7 * 86400 ->
          verify_token (Some refresh) now one_order = Ok (user, one_order)).
Proof.
  apply (login_tokens_name_the_user bruno_login 2000 bruno_tokens
           one_order one_order).
  - exact Runs.one_order_reachable.
  - reflexivity.
Defined.

(** Bruno's order while Ana cancels it. *)
Lemma orders_keep_key_and_owner_witness :
  exists o',
    find_order 1 (serve one_order as_ana (Orders (POST_orders_cancel 1)))
    = Some o'
    /\ Order.id o' = Order.id order_one
    /\ Order.user o' = Order.user order_one.
Proof.
  apply (orders_keep_key_and_owner one_order as_ana
           (Orders (POST_orders_cancel 1)) 1 order_one).
  reflexivity.
Defined.

(** Bruno removes the item of his order. *)
Lemma removed_item_is_gone_witness :
  find_item 1 (serve one_order as_bruno (Orders (POST_orders_order_remove_item 1)))
  = None
  /\ forall q,
       remove_iten_order 1 q
         (serve one_order as_bruno (Orders (POST_orders_order_remove_item 1)))
       = Raise (HTTPException 400 "Item not found.").
Proof.
  eapply (removed_item_is_gone 1 bruno_row _ one_order).
  vm_compute. reflexivity.
Defined.

Lemma remove_iten_order_answers_witness :
  succeeds (remove_iten_order 1 ana_row) one_order
  \/ remove_iten_order 1 ana_row one_order
     = Raise (HTTPException 400 "Item not found.")
  \/ remove_iten_order 1 ana_row one_order
     = Raise (HTTPException 403 "You are not authorized to make this request.").
Proof.
  apply (remove_iten_order_answers 1 ana_row one_order).
  exact Runs.one_order_reachable.
Defined.

(** Bruno adds one item at 10.00 and looks at his order. *)
Lemma add_then_get_order_witness :
  exists n o o',
    get_order 1 bruno_row one_order = Ok ((n, o), one_order)
    /\ get_order 1 bruno_row
         (serve one_order as_bruno
            (Orders (POST_orders_order_add_item 1 (item 1 10%float))))
       = Ok ((n + 1, o'),
             serve one_order as_bruno
               (Orders (POST_orders_order_add_item 1 (item 1 10%float))))
    /\ Order.price o' = 17.5%float
    /\ Order.id o' = Order.id o
    /\ Order.user o' = Order.user o
    /\ Order.status o' = Order.status o.
Proof.
  apply (add_then_get_order 1 (item 1 10%float) bruno_row 2 17.5%float
           one_order).
  reflexivity.
Defined.

(** Bruno opens a second order. *)
Lemma order_then_get_order_witness :
  exists order_id o db',
    order {| OrderSchema.user_id := 2 |} bruno_row one_order
    = Ok (order_id, db')
    /\ find_order order_id one_order = None
    /\ get_order order_id bruno_row db' = Ok ((0, o), db')
    /\ Order.id o = order_id
    /\ Order.user o = 2
    /\ Order.status o = "pending"
    /\ Order.price o = num_zero.
Proof.
  apply (order_then_get_order {| OrderSchema.user_id := 2 |} bruno_row
           one_order Runs.one_order_reachable).
  right. reflexivity.
Defined.

(** Bruno reads his order. *)
Lemma responses_carry_own_orders_witness :
  Forall (fun o => Order.user o = User.id bruno_row)
         (orders_in (OrderDetail (1, order_one))).
Proof.
  apply (responses_carry_own_orders (GET_orders_order 1) bruno_row
           (OrderDetail (1, order_one)) one_order one_order);
    reflexivity.
Defined.

(** Bruno cancels his order; Ana's order 2 is as it was. *)
Lemma other_users_orders_untouched_witness :
  find_order 2 (serve two_orders as_bruno (Orders (POST_orders_cancel 1)))
  = Some order_two
  /\ itens_of 2 (serve two_orders as_bruno (Orders (POST_orders_cancel 1)))
     = itens_of 2 two_orders.
Proof.
  apply (other_users_orders_untouched (POST_orders_cancel 1) bruno_row
           (OrderUpdated (Order.set_status order_one "canceled"))
           two_orders
           (serve two_orders as_bruno (Orders (POST_orders_cancel 1)))
           2 order_two).
  - exact two_orders_reachable.
  - reflexivity.
  - reflexivity.
  - reflexivity.
  - discriminate.
Defined.

(** Ana lists the orders of the store with two orders. *)
Lemma listed_orders_are_fetched_by_key_witness :
  exists orders_list,
    list_orders ana_row two_orders = Ok (orders_list, two_orders)
    /\ NoDup (map Order.id orders_list)
    /\ forall o,
        In o orders_list ->
        get_order (Order.id o) ana_row two_orders
        = Ok ((Z.of_nat (List.length (itens_of (Order.id o) two_orders)), o),
              two_orders)
        /\ Order.price o
           = py_sum (map line_total (itens_of (Order.id o) two_orders)).
Proof.
  apply (listed_orders_are_fetched_by_key ana_row two_orders).
  - exact two_orders_reachable.
  - reflexivity.
Defined.

(** The item of Bruno's order while Ana cancels the order. *)
Lemma items_stay_until_removed_witness :
  find_item 1 (serve one_order as_ana (Orders (POST_orders_cancel 1)))
  = find_item 1 one_order.
Proof.
  apply (items_stay_until_removed one_order as_ana
           (Orders (POST_orders_cancel 1)) 1).
  - reflexivity.
  - discriminate.
Defined.

(** The store with two orders. *)
Lemma reachable_store_shape_witness :
  (forall o, In o (orders two_orders) ->
     Order.price o = py_sum (map line_total (itens_of (Order.id o) two_orders)))
  /\ NoDup (map Order.id (orders two_orders))
  /\ NoDup (map OrderItens.id (order_itens two_orders))
  /\ (forall it, In it (order_itens two_orders) ->
        exists o, In o (orders two_orders) /\ Order.id o = OrderItens.order it).
Proof.
  apply (reachable_store_shape two_orders). exact two_orders_reachable.
Defined.

End Cases.
